(** * The transformer generator model: assembly of encoder, decoder and
      shared embeddings (parlai/agents/transformer/modules/generator.py)

    The development embeds [TransformerGeneratorModel] shallowly.  Python
    exceptions are an error type, tensors are flat row-major buffers with a
    shape, and tensor objects live in a store addressed by references, so
    that in-place writes and sharing of the embedding weight are visible.
    Code that the module imports (encoder and decoder classes, the
    dictionary, [create_embeddings], [neginf], the base class constructor,
    the decoder layers) enters as an interface. *)

From Stdlib Require Import PrimFloat.
From stdpp Require Import base numbers list option strings gmap.

(** ** Python results *)

Inductive exn :=
  | IndexError | KeyError | RuntimeError | TypeError | ValueError.

Inductive result (A : Type) := Ok (a : A) | Raise (e : exn).
Arguments Ok {A} a.
Arguments Raise {A} e.

Global Instance result_ret : MRet result := @Ok.
Global Instance result_bind : MBind result := λ A B f r,
  match r with Ok a => f a | Raise e => Raise e end.
Global Instance result_fmap : FMap result := λ A B f r,
  match r with Ok a => Ok (f a) | Raise e => Raise e end.

(** ** Tensors *)

(** Floating dtypes, and the dtypes of the three kinds of tensor that the
    module handles (activations, index tensors, masks). *)
Inductive float_dtype := float16 | bfloat16 | float32 | float64.
Inductive dtype := floating (f : float_dtype) | int64 | bool_.

Inductive device := cpu | cuda (ordinal : nat).

Global Instance float_dtype_eq_dec : EqDecision float_dtype.
Proof. solve_decision. Defined.
Global Instance device_eq_dec : EqDecision device.
Proof. solve_decision. Defined.

(** A tensor: its device, its shape and its elements in row-major order. *)
Record tensor (A : Type) := Tensor {
  t_device : device;
  t_shape : list nat;
  t_data : list A
}.
Arguments Tensor {A} _ _ _.
Arguments t_device {A} _.
Arguments t_shape {A} _.
Arguments t_data {A} _.

Definition numel (shape : list nat) : nat := foldr Nat.mul 1 shape.

Definition int64_ok (z : Z) : Prop := (- 2 ^ 63 ≤ z < 2 ^ 63)%Z.

(** Every torch tensor holds as many elements as its shape says, and its
    sizes are 64-bit integers. *)
Definition tensor_wf {A} (t : tensor A) : Prop :=
  length (t_data t) = numel (t_shape t) ∧
  Forall (λ d, int64_ok (Z.of_nat d)) (t_shape t).

(** The [i]-th run of [sz] consecutive elements of a buffer. *)
Definition block {A} (sz i : nat) (d : list A) : list A :=
  take sz (drop (i * sz) d).

(** Row [i] of a tensor along dimension 0. *)
Definition row {A} (t : tensor A) (i : nat) : list A :=
  block (numel (tail (t_shape t))) i (t_data t).

(** Element [(b, s, k)] of a tensor of rank three. *)
Definition entry3 {A} (t : tensor A) (b s k : nat) : option A :=
  match t_shape t with
  | [d0; d1; d2] =>
      if decide (b < d0 ∧ s < d1 ∧ k < d2)
      then t_data t !! ((b * d1 + s) * d2 + k)
      else None
  | _ => None
  end.

(** A Python integer index into a dimension of size [n]; negative indices
    count from the end. *)
Definition norm_index (n : nat) (k : Z) : option nat :=
  if decide (0 ≤ k < Z.of_nat n)%Z then Some (Z.to_nat k)
  else if decide (- Z.of_nat n ≤ k < 0)%Z then Some (Z.to_nat (k + Z.of_nat n))
  else None.

(** Arithmetic of the floating-point elements: [dot x w] is the inner
    product of two vectors as the backend of [F.linear] computes it.  The
    order in which the backend accumulates the products is its own, so
    the operation is left uninterpreted and no law is assumed of it. *)
Class FloatOps (F : Type) := {
  dot : list F → list F → F
}.

Section Kernels.
Context {F : Type} `{!FloatOps F}.

(** [F.linear(input, weight)] without bias: the last dimension of the
    input is contracted with the last dimension of the weight.  A weight
    of rank two [(V, D)] gives an output whose last dimension is [V]; a
    weight of rank one gives an output without that dimension. *)
Definition linear_kernel (input weight : tensor F) : result (tensor F) :=
  if decide (t_device input = t_device weight) then
    let lead := take (length (t_shape input) - 1) (t_shape input) in
    match last (t_shape input), t_shape weight with
    | Some d, [v; d'] =>
        if decide (d = d') then
          Ok (Tensor (t_device input) (lead ++ [v])
                (n ← seq 0 (numel lead);
                 j ← seq 0 v;
                 [dot (block d n (t_data input)) (block d j (t_data weight))]))
        else Raise RuntimeError
    | Some d, [d'] =>
        if decide (d = d') then
          Ok (Tensor (t_device input) lead
                (n ← seq 0 (numel lead);
                 [dot (block d n (t_data input)) (t_data weight)]))
        else Raise RuntimeError
    | _, _ => Raise RuntimeError
    end
  else Raise RuntimeError.
End Kernels.

(** [t[:, :, k] = v]: every element whose index along dimension 2 is [k]
    is overwritten.  Fewer than three dimensions, or [k] outside the
    dimension, is an [IndexError]. *)
Definition setitem_dim2_kernel {A} (t : tensor A) (k : Z) (v : A)
    : result (tensor A) :=
  match t_shape t with
  | _ :: _ :: d2 :: rest =>
      match norm_index d2 k with
      | Some j =>
          let inner := numel rest in
          Ok (Tensor (t_device t) (t_shape t)
                (imap (λ i x, if decide ((i / inner) mod d2 = j) then v else x)
                      (t_data t)))
      | None => Raise IndexError
      end
  | _ => Raise IndexError
  end.

(** [torch.index_select(input, dim, index)]: the index is a vector of
    positions along [dim], each within the dimension; the output has the
    selected slices in the order of the index.  A position outside the
    dimension is an [IndexError], and a [RuntimeError] when the input
    has no elements.  A tensor without dimensions is selected from with
    the single position 0. *)
Definition index_select_kernel {A} (input : tensor A) (dim : nat)
    (index : tensor Z) : result (tensor A) :=
  if decide (t_device input = t_device index) then
    if decide (length (t_shape index) ≤ 1) then
      match t_shape input !! dim with
      | Some n =>
          if decide (Forall (λ i, 0 ≤ i < Z.of_nat n)%Z (t_data index)) then
            let outer := numel (take dim (t_shape input)) in
            let inner := numel (drop (S dim) (t_shape input)) in
            Ok (Tensor (t_device input)
                  (<[dim := length (t_data index)]> (t_shape input))
                  (o ← seq 0 outer;
                   i ← t_data index;
                   block inner (o * n + Z.to_nat i) (t_data input)))
          else if decide (numel (t_shape input) = 0) then Raise RuntimeError
          else Raise IndexError
      | None =>
          if decide (t_shape input = [] ∧ dim = 0) then
            if decide (t_data index = [0%Z])
            then Ok (Tensor (t_device input) [] (t_data input))
            else Raise IndexError
          else Raise IndexError
      end
    else Raise IndexError
  else Raise RuntimeError.

(** ** The store of tensor objects *)

Abbreviation loc := nat (only parsing).

Inductive cell (F : Type) :=
  | FloatTensor (dt : float_dtype) (t : tensor F)
  | LongTensor (t : tensor Z)
  | BoolTensor (t : tensor bool).
Arguments FloatTensor {F} dt t.
Arguments LongTensor {F} t.
Arguments BoolTensor {F} t.

Definition cell_dtype {F} (c : cell F) : dtype :=
  match c with
  | FloatTensor dt _ => floating dt
  | LongTensor _ => int64
  | BoolTensor _ => bool_
  end.

Definition cell_device {F} (c : cell F) : device :=
  match c with
  | FloatTensor _ t => t_device t
  | LongTensor t => t_device t
  | BoolTensor t => t_device t
  end.

Definition cell_shape {F} (c : cell F) : list nat :=
  match c with
  | FloatTensor _ t => t_shape t
  | LongTensor t => t_shape t
  | BoolTensor t => t_shape t
  end.

Definition cell_wf {F} (c : cell F) : Prop :=
  match c with
  | FloatTensor _ t => tensor_wf t
  | LongTensor t => tensor_wf t
  | BoolTensor t => tensor_wf t
  end.

(** Row [i] along dimension 0 of the tensor in a cell, with its kind. *)
Inductive row_data (F : Type) :=
  | FloatRow (dt : float_dtype) (l : list F)
  | LongRow (l : list Z)
  | BoolRow (l : list bool).
Arguments FloatRow {F} dt l.
Arguments LongRow {F} l.
Arguments BoolRow {F} l.

Definition cell_row {F} (c : cell F) (i : nat) : row_data F :=
  match c with
  | FloatTensor dt t => FloatRow dt (row t i)
  | LongTensor t => LongRow (row t i)
  | BoolTensor t => BoolRow (row t i)
  end.

Definition cell_to {F} (d : device) (c : cell F) : cell F :=
  match c with
  | FloatTensor dt t => FloatTensor dt (Tensor d (t_shape t) (t_data t))
  | LongTensor t => LongTensor (Tensor d (t_shape t) (t_data t))
  | BoolTensor t => BoolTensor (Tensor d (t_shape t) (t_data t))
  end.

Definition cell_index_select {F} (c : cell F) (dim : nat) (index : cell F)
    : result (cell F) :=
  match index with
  | LongTensor ix =>
      match c with
      | FloatTensor dt t => FloatTensor dt <$> index_select_kernel t dim ix
      | LongTensor t => LongTensor <$> index_select_kernel t dim ix
      | BoolTensor t => BoolTensor <$> index_select_kernel t dim ix
      end
  | _ => Raise RuntimeError
  end.

Abbreviation store F := (gmap loc (cell F)).

(** Computations that read and write the store and may raise. *)
Definition M (F A : Type) : Type := store F → result (A * store F).

Global Instance M_ret {F} : MRet (M F) := λ A a σ, Ok (a, σ).
Global Instance M_bind {F} : MBind (M F) := λ A B f m σ,
  match m σ with Ok (a, σ') => f a σ' | Raise e => Raise e end.

Definition lift {F A} (r : result A) : M F A := λ σ,
  match r with Ok a => Ok (a, σ) | Raise e => Raise e end.

Section Store.
Context {F : Type} `{!FloatOps F}.

(** A new tensor object. *)
Definition alloc (c : cell F) : M F loc := λ σ,
  let l := fresh (dom σ) in Ok (l, <[l := c]> σ).

Definition deref (l : loc) : M F (cell F) := λ σ,
  match σ !! l with Some c => Ok (c, σ) | None => Raise RuntimeError end.

(** Overwrite the object at [l] in place. *)
Definition assign (l : loc) (c : cell F) : M F () := λ σ,
  Ok ((), <[l := c]> σ).

Definition tensor_dtype (l : loc) : M F dtype :=
  c ← deref l; mret (cell_dtype c).

Definition tensor_device (l : loc) : M F device :=
  c ← deref l; mret (cell_device c).

(** [F.linear(input, weight)]: both are floating tensors of one dtype;
    the result is a new tensor. *)
Definition F_linear (input weight : loc) : M F loc :=
  x ← deref input;
  w ← deref weight;
  match x, w with
  | FloatTensor dx tx, FloatTensor dw tw =>
      if decide (dx = dw) then
        r ← lift (linear_kernel tx tw);
        alloc (FloatTensor dx r)
      else lift (Raise RuntimeError)
  | _, _ => lift (Raise RuntimeError)
  end.

(** [t[:, :, k] = v] for a floating value [v], in place. *)
Definition tensor_setitem_dim2 (l : loc) (k : Z) (v : F) : M F () :=
  c ← deref l;
  match c with
  | FloatTensor dt t =>
      t' ← lift (setitem_dim2_kernel t k v);
      assign l (FloatTensor dt t')
  | _ => lift (Raise TypeError)
  end.

(** [torch.LongTensor(xs)] for a Python list of integers: a new
    one-dimensional int64 tensor on the CPU; an element that does not
    fit 64 bits is a [ValueError]. *)
Definition torch_LongTensor (xs : list Z) : M F loc :=
  if decide (Forall int64_ok xs)
  then alloc (LongTensor (Tensor cpu [length xs] xs))
  else lift (Raise ValueError).

(** [t.to(device)]: the tensor itself when it is on the device already,
    a copy on the device otherwise. *)
Definition tensor_to (l : loc) (d : device) : M F loc :=
  c ← deref l;
  if decide (cell_device c = d) then mret l else alloc (cell_to d c).

(** [torch.index_select(input, dim, index)]: a new tensor. *)
Definition torch_index_select (input : loc) (dim : nat) (index : loc)
    : M F loc :=
  x ← deref input;
  ix ← deref index;
  r ← lift (cell_index_select x dim ix);
  alloc r.
End Store.

(** ** Interfaces of the imported code *)

(** Values held by the option dictionary [parlai.core.opt.Opt]. *)
Inductive optval :=
  | OptInt (z : Z) | OptStr (s : string) | OptBool (b : bool) | OptNone.

Abbreviation Opt := (gmap string optval).

(** What the module uses of a [DictionaryAgent]: the three special
    tokens, [dictionary[token]] and [len(dictionary)]. *)
Record DictionaryAgent := {
  null_token : string;
  start_token : string;
  end_token : string;
  dict_getitem : string → Z;
  dict_len : nat
}.

(** Class objects, told apart by name. *)
Inductive pyclass :=
  | TransformerEncoder | TransformerDecoder | UserClass (name : string).

(** [ComponentSpec(klass, manifest)]. *)
Record ComponentSpec (CM : Type) := {
  klass : pyclass;
  manifest : CM
}.
Arguments Build_ComponentSpec {CM} _ _.
Arguments klass {CM} _.
Arguments manifest {CM} _.

(** An [nn.Embedding] module; its weight is a tensor object. *)
Record Embedding := { weight : loc }.

(** Values passed as keyword arguments to a component class. *)
Inductive pyval (CM : Type) :=
  | PyNone
  | PyInt (z : Z)
  | PyStr (s : string)
  | PyOpt (o : Opt)
  | PyEmbedding (e : Embedding)
  | PyManifest (m : CM).
Arguments PyNone {CM}.
Arguments PyInt {CM} z.
Arguments PyStr {CM} s.
Arguments PyOpt {CM} o.
Arguments PyEmbedding {CM} e.
Arguments PyManifest {CM} m.

Definition kwargs (CM : Type) : Type := list (string * pyval CM).

(** A decoder layer, as far as beam search needs it. *)
Record Layer (LayerState : Type) := {
  reorder_incremental_state : LayerState → tensor Z → result LayerState
}.
Arguments reorder_incremental_state {LayerState} _ _ _.

(** [TransformerGeneratorModel.Manifest]. *)
Module Manifest.
Record t (CM : Type) := Build {
  encoder : ComponentSpec CM;
  decoder : ComponentSpec CM
}.
Arguments Build {CM} _ _.
Arguments encoder {CM} _.
Arguments decoder {CM} _.
End Manifest.

(** The code imported by the module.  [new k kw] is the call of the
    class object [k] with the keyword arguments [kw]; [layers] reads the
    attribute of that name. *)
Class Imports (F CM Component Base LayerState : Type) := {
  neginf : dtype → F;
  create_embeddings : DictionaryAgent → optval → Z → M F Embedding;
  new : pyclass → kwargs CM → M F Component;
  TorchGeneratorModel_init : Z → Z → Z → M F Base;
  TransformerEncoder_Manifest : CM;
  TransformerDecoder_Manifest : CM;
  layers : Component → list (Layer LayerState)
}.

(** ** The generator model *)

Record TransformerGeneratorModel (Component Base : Type) := {
  base : Base;
  pad_idx : Z;
  start_idx : Z;
  end_idx : Z;
  opt : Opt;
  embeddings : Embedding;
  encoder : Component;
  decoder : Component
}.
Arguments Build_TransformerGeneratorModel {Component Base}.
Arguments base {Component Base} _.
Arguments pad_idx {Component Base} _.
Arguments start_idx {Component Base} _.
Arguments end_idx {Component Base} _.
Arguments opt {Component Base} _.
Arguments embeddings {Component Base} _.
Arguments encoder {Component Base} _.
Arguments decoder {Component Base} _.

(** The [indices] argument of [reorder_encoder_states]: a tensor or a
    plain list of integers. *)
Inductive indices_arg := IndTensor (l : loc) | IndList (xs : list Z).

(** The index sequence [idxs] that an [indices] argument denotes in a
    store: the elements of the list, or those of an index vector that
    lives on device [d]. *)
Definition indices_on {F} (σ : store F) (d : device) (a : indices_arg)
    (idxs : list Z) : Prop :=
  match a with
  | IndList xs => xs = idxs
  | IndTensor l =>
      ∃ ix, σ !! l = Some (LongTensor ix) ∧ t_data ix = idxs ∧
            t_device ix = d ∧ length (t_shape ix) ≤ 1
  end.

(** [d[k]] on a Python dict. *)
Definition dict_lookup {V} (d : gmap Z V) (k : Z) : result V :=
  match d !! k with Some v => Ok v | None => Raise KeyError end.

Section Generator.
Context {F CM Component Base LayerState : Type}.
Context `{!FloatOps F} `{!Imports F CM Component Base LayerState}.

Definition ENCODER_DEFAULT_SPEC : ComponentSpec CM :=
  {| klass := TransformerEncoder; manifest := TransformerEncoder_Manifest |}.

Definition DECODER_DEFAULT_SPEC : ComponentSpec CM :=
  {| klass := TransformerDecoder; manifest := TransformerDecoder_Manifest |}.

(** [Manifest()]: both fields at their defaults. *)
Definition Manifest_default : Manifest.t CM :=
  {| Manifest.encoder := ENCODER_DEFAULT_SPEC;
     Manifest.decoder := DECODER_DEFAULT_SPEC |}.

(** An omitted argument is [None] here and takes the default of the
    signature. *)
Definition build_encoder (opt : Opt) (dictionary : DictionaryAgent)
    (embedding padding_idx reduction_type : option (pyval CM))
    (spec : option (ComponentSpec CM)) : M F Component :=
  let embedding := default PyNone embedding in
  let padding_idx := default PyNone padding_idx in
  let reduction_type := default (PyStr "mean") reduction_type in
  let spec := default ENCODER_DEFAULT_SPEC spec in
  new (klass spec)
    [("opt", PyOpt opt);
     ("embedding", embedding);
     ("vocabulary_size", PyInt (Z.of_nat (dict_len dictionary)));
     ("padding_idx", padding_idx);
     ("reduction_type", reduction_type);
     ("manifest", PyManifest (manifest spec))].

Definition build_decoder (opt : Opt) (embedding : option (pyval CM))
    (spec : option (ComponentSpec CM)) : M F Component :=
  let embedding := default PyNone embedding in
  let spec := default ENCODER_DEFAULT_SPEC spec in
  new (klass spec)
    [("opt", PyOpt opt);
     ("embedding", embedding);
     ("manifest", PyManifest (manifest spec))].

Definition __init__ (opt : Opt) (dictionary : DictionaryAgent)
    (manifest : option (Manifest.t CM))
    : M F (TransformerGeneratorModel Component Base) :=
  let pad_idx := dict_getitem dictionary (null_token dictionary) in
  let start_idx := dict_getitem dictionary (start_token dictionary) in
  let end_idx := dict_getitem dictionary (end_token dictionary) in
  base ← TorchGeneratorModel_init pad_idx start_idx end_idx;
  let manifest := default Manifest_default manifest in
  embedding_size ←
    lift (match opt !! "embedding_size" with
          | Some v => Ok v
          | None => Raise KeyError
          end);
  embeddings ← create_embeddings dictionary embedding_size pad_idx;
  encoder ← build_encoder opt dictionary
              (Some (PyEmbedding embeddings)) (Some (PyInt pad_idx))
              (Some PyNone) (Some (Manifest.encoder manifest));
  decoder ← build_decoder opt (Some (PyEmbedding embeddings))
              (Some (Manifest.decoder manifest));
  mret {| base := base; pad_idx := pad_idx; start_idx := start_idx;
          end_idx := end_idx; opt := opt; embeddings := embeddings;
          encoder := encoder; decoder := decoder |}.

Local Abbreviation Model := (TransformerGeneratorModel Component Base).

Definition reorder_encoder_states (self : Model)
    (encoder_states : loc * loc) (indices : indices_arg)
    : M F (loc * loc) :=
  let '(enc, mask) := encoder_states in
  indices ←
    match indices with
    | IndTensor t => mret t
    | IndList xs =>
        t ← torch_LongTensor xs;
        d ← tensor_device enc;
        tensor_to t d
    end;
  enc ← torch_index_select enc 0 indices;
  mask ← torch_index_select mask 0 indices;
  mret (enc, mask).

(** The dict comprehension over [enumerate(self.decoder.layers)]:
    entries are computed and stored in the order of the layers; [acc]
    is the dict built so far. *)
Fixpoint reorder_layers (idx : nat) (ls : list (Layer LayerState))
    (incremental_state : gmap Z LayerState) (inds : tensor Z)
    (acc : gmap Z LayerState) : result (gmap Z LayerState) :=
  match ls with
  | [] => Ok acc
  | layer :: ls' =>
      st ← dict_lookup incremental_state (Z.of_nat idx);
      v ← reorder_incremental_state layer st inds;
      reorder_layers (S idx) ls' incremental_state inds
        (<[Z.of_nat idx := v]> acc)
  end.

Definition reorder_decoder_incremental_state (self : Model)
    (incremental_state : gmap Z LayerState) (inds : tensor Z)
    : result (gmap Z LayerState) :=
  reorder_layers 0 (layers (decoder self)) incremental_state inds ∅.

Definition output (self : Model) (tensor : loc) : M F loc :=
  output ← F_linear tensor (weight (embeddings self));
  dt ← tensor_dtype output;
  tensor_setitem_dim2 output (start_idx self) (neginf dt);;
  mret output.
End Generator.

(** ** A small instance *)

(** Integers stand for the floating-point elements; a component is the
    record of the call that built it; a layer state is a list of beam
    entries, reordered by position. *)

#[local] Instance Z_float : FloatOps Z :=
  {| dot := λ x w, foldl Z.add 0%Z (zip_with Z.mul x w) |}.

Definition ex_weight : tensor Z :=
  Tensor cpu [3; 2] [1; 0; 0; 1; 1; 1]%Z.

Definition ex_layer : Layer (list Z) :=
  {| reorder_incremental_state := λ st inds,
       Ok ((λ i, nth (Z.to_nat i) st 0%Z) <$> t_data inds) |}.

#[local] Instance ex_imports
    : Imports Z () (pyclass * kwargs ()) (Z * Z * Z) (list Z) :=
  {| neginf := λ dt,
       match dt with
       | floating float16 => (- 65504)%Z
       | _ => (- 10 ^ 20)%Z
       end;
     create_embeddings := λ _ _ _,
       w ← alloc (FloatTensor float32 ex_weight); mret {| weight := w |};
     new := λ k kw, mret (k, kw);
     TorchGeneratorModel_init := λ p s e, mret (p, s, e);
     TransformerEncoder_Manifest := ();
     TransformerDecoder_Manifest := ();
     layers := λ _, [ex_layer; ex_layer] |}.

Definition ex_dictionary : DictionaryAgent :=
  {| null_token := "__null__";
     start_token := "__start__";
     end_token := "__end__";
     dict_getitem := λ s,
       if decide (s = "__null__") then 0%Z
       else if decide (s = "__start__") then 1%Z
       else if decide (s = "__end__") then 2%Z
       else 3%Z;
     dict_len := 3 |}.

Definition ex_opt : Opt := {[ "embedding_size" := OptInt 2 ]}.

Definition ex_model
    : TransformerGeneratorModel (pyclass * kwargs ()) (Z * Z * Z) :=
  {| base := (0, 1, 2)%Z;
     pad_idx := 0; start_idx := 1; end_idx := 2;
     opt := ex_opt;
     embeddings := {| weight := 0 |};
     encoder :=
       (TransformerEncoder,
        [("opt", PyOpt ex_opt);
         ("embedding", PyEmbedding {| weight := 0 |});
         ("vocabulary_size", PyInt 3);
         ("padding_idx", PyInt 0);
         ("reduction_type", PyNone);
         ("manifest", PyManifest ())]);
     decoder :=
       (TransformerDecoder,
        [("opt", PyOpt ex_opt);
         ("embedding", PyEmbedding {| weight := 0 |});
         ("manifest", PyManifest ())]) |}.

(** The store after construction, and one with an activation of shape
    (1, 2, 2), encoder states of three rows and an index vector. *)
Definition ex_store0 : store Z := {[ 0 := FloatTensor float32 ex_weight ]}.

Definition ex_input : tensor Z := Tensor cpu [1; 2; 2] [5; 6; 7; 8]%Z.
Definition ex_enc : tensor Z := Tensor cpu [3; 1; 2] [5; 6; 7; 8; 9; 10]%Z.
Definition ex_mask : tensor bool := Tensor cpu [3; 1] [true; false; true].
Definition ex_index : tensor Z := Tensor cpu [2] [2; 0]%Z.

Definition ex_store : store Z :=
  <[4 := LongTensor ex_index]>
    (<[3 := BoolTensor ex_mask]>
       (<[2 := FloatTensor float32 ex_enc]>
          (<[1 := FloatTensor float32 ex_input]> ex_store0))).

Definition ex_state : gmap Z (list Z) :=
  {[ 0%Z := [10; 11; 12]%Z; 1%Z := [20; 21; 22]%Z; 7%Z := [70]%Z ]}.

(** ** Further observations and inputs *)

(** Element [(a, b, c, v)] of a tensor of rank four. *)
Definition entry4 {A} (t : tensor A) (a b c v : nat) : option A :=
  match t_shape t with
  | [d0; d1; d2; d3] =>
      if decide (a < d0 ∧ b < d1 ∧ c < d2 ∧ v < d3)
      then t_data t !! (((a * d1 + b) * d2 + c) * d3 + v)
      else None
  | _ => None
  end.

(** The index vector that holds a sequence of positions on a device. *)
Definition index_vector (d : device) (idxs : list Z) : tensor Z :=
  Tensor d [length idxs] idxs.

(** The positions that [idxs2] picks among those of [idxs1]: reordering
    by [idxs1] and then by [idxs2] reads these rows of the original. *)
Definition compose_indices (idxs1 idxs2 : list Z) : list Z :=
  (λ j, default 0%Z (idxs1 !! Z.to_nat j)) <$> idxs2.

(** An activation of shape (1, 1, 2, 2) and one of shape (2, 2). *)
Definition ex_input4 : tensor Z := Tensor cpu [1; 1; 2; 2] [5; 6; 7; 8]%Z.
Definition ex_input2 : tensor Z := Tensor cpu [2; 2] [5; 6; 7; 8]%Z.

Definition ex_store4 : store Z :=
  <[2 := FloatTensor float32 ex_input2]>
    (<[1 := FloatTensor float32 ex_input4]> ex_store0).

(** A model whose start index lies beyond the vocabulary of three. *)
Definition ex_model_start3
    : TransformerGeneratorModel (pyclass * kwargs ()) (Z * Z * Z) :=
  {| base := (0, 3, 2)%Z; pad_idx := 0; start_idx := 3; end_idx := 2;
     opt := ex_opt; embeddings := {| weight := 0 |};
     encoder := encoder ex_model; decoder := decoder ex_model |}.

(** A layer whose reordering raises. *)
Definition ex_layer_raising : Layer (list Z) :=
  {| reorder_incremental_state := λ _ _, Raise RuntimeError |}.

(** The small instance with a decoder of three layers, the second of
    which raises. *)
Definition ex_imports_raising
    : Imports Z () (pyclass * kwargs ()) (Z * Z * Z) (list Z) :=
  {| neginf := neginf;
     create_embeddings := create_embeddings;
     new := new;
     TorchGeneratorModel_init := TorchGeneratorModel_init;
     TransformerEncoder_Manifest := ();
     TransformerDecoder_Manifest := ();
     layers := λ _, [ex_layer; ex_layer_raising; ex_layer] |}.

(** ** The mask value of ParlAI over binary64 *)


(** Binary64 elements; the inner product accumulates from the left. *)
#[local] Instance binary64_float : FloatOps float :=
  {| dot := λ x w,
       foldl PrimFloat.add 0%float (zip_with PrimFloat.mul x w) |}.




(** * Properties *)

(** ** Buffers cut into equal blocks *)

Section Buffers.
Context {A B : Type}.
Implicit Types (l : list A) (f : A → list B) (d : list B).

Lemma length_bind_uniform f l m :
  (∀ x, x ∈ l → length (f x) = m) → length (l ≫= f) = length l * m.
Proof.
  induction l as [|y l IH]; intros Hm; [done|].
  rewrite bind_cons, length_app, IH, (Hm y); simpl.
  - done.
  - by left.
  - intros x Hx. apply Hm. by right.
Qed.

Lemma block_bind_uniform f l m i x :
  (∀ y, y ∈ l → length (f y) = m) → l !! i = Some x →
  block m i (l ≫= f) = f x.
Proof.
  unfold block. revert i.
  induction l as [|y l IH]; intros i Hm Hi; [done|].
  rewrite bind_cons. destruct i as [|i]; simplify_eq/=.
  - apply take_app_length'. symmetry. apply Hm. by left.
  - rewrite drop_app, drop_ge, app_nil_l.
    + rewrite (Hm y) by (by left).
      replace (m + i * m - m) with (i * m) by lia.
      apply IH; [|done]. intros z Hz. apply Hm. by right.
    + rewrite (Hm y) by (by left). lia.
Qed.

Lemma lookup_block d m i j : j < m → block m i d !! j = d !! (i * m + j).
Proof. intros Hj. unfold block. by rewrite lookup_take_lt, lookup_drop. Qed.

Lemma length_block d m i : (i + 1) * m ≤ length d → length (block m i d) = m.
Proof. intros Hl. unfold block. rewrite length_take, length_drop. lia. Qed.

Lemma lookup_bind_uniform f l m i j x :
  (∀ y, y ∈ l → length (f y) = m) → l !! i = Some x → j < m →
  (l ≫= f) !! (i * m + j) = f x !! j.
Proof.
  intros Hm Hi Hj.
  by rewrite <- (lookup_block _ m i j), (block_bind_uniform f l m i x).
Qed.
End Buffers.


Lemma norm_index_nonneg n k :
  (0 ≤ k < Z.of_nat n)%Z → norm_index n k = Some (Z.to_nat k).
Proof. intros H. unfold norm_index. by rewrite decide_True. Qed.

(** ** Running store computations *)

Ltac unfold_M :=
  unfold tensor_dtype, tensor_device, deref, alloc, assign, lift,
    mbind, M_bind, mret, M_ret in *.

Section StoreRuns.
Context {F : Type} `{!FloatOps F}.
Implicit Types (σ : store F) (l : loc) (c : cell F).

Lemma bind_run {A B} (m : M F A) (f : A → M F B) σ a σ1 :
  m σ = Ok (a, σ1) → (m ≫= f) σ = f a σ1.
Proof. intros H. unfold mbind, M_bind. by rewrite H. Qed.

Lemma bind_inv {A B} (m : M F A) (f : A → M F B) σ b σ' :
  (m ≫= f) σ = Ok (b, σ') → ∃ a σ1, m σ = Ok (a, σ1) ∧ f a σ1 = Ok (b, σ').
Proof.
  unfold mbind, M_bind. destruct (m σ) as [[a σ1]|e]; [eauto|done].
Qed.

Lemma alloc_fresh σ c l σ' :
  alloc c σ = Ok (l, σ') → σ !! l = None ∧ σ' = <[l := c]> σ.
Proof.
  unfold alloc. intros [= <- <-]. split; [|done].
  apply not_elem_of_dom_1, is_fresh.
Qed.

Lemma F_linear_run σ x w dt tx tw r :
  σ !! x = Some (FloatTensor dt tx) → σ !! w = Some (FloatTensor dt tw) →
  linear_kernel tx tw = Ok r →
  F_linear x w σ
  = Ok (fresh (dom σ), <[fresh (dom σ) := FloatTensor dt r]> σ).
Proof.
  intros Hx Hw Hr. unfold F_linear. unfold_M.
  rewrite Hx, Hw, decide_True, Hr; done.
Qed.

Lemma F_linear_inv σ x w o σ' :
  F_linear x w σ = Ok (o, σ') →
  ∃ dt tx tw r,
    σ !! x = Some (FloatTensor dt tx) ∧ σ !! w = Some (FloatTensor dt tw) ∧
    linear_kernel tx tw = Ok r ∧
    σ !! o = None ∧ σ' = <[o := FloatTensor dt r]> σ.
Proof.
  unfold F_linear. unfold_M. intros H.
  destruct (σ !! x) as [[dx tx| |]|] eqn:Hx; try done;
    destruct (σ !! w) as [[dw tw| |]|] eqn:Hw; try done.
  case_decide as Hd; [subst dw|done].
  destruct (linear_kernel tx tw) as [r|] eqn:Hr; [|done].
  injection H as <- <-. exists dx, tx, tw, r. split_and!; try done.
  apply not_elem_of_dom_1, is_fresh.
Qed.

Lemma setitem_dim2_run σ l dt t k v t' :
  σ !! l = Some (FloatTensor dt t) → setitem_dim2_kernel t k v = Ok t' →
  tensor_setitem_dim2 l k v σ = Ok ((), <[l := FloatTensor dt t']> σ).
Proof.
  intros Hl Ht. unfold tensor_setitem_dim2. unfold_M. by rewrite Hl, Ht.
Qed.

Lemma setitem_dim2_inv σ l k v u σ' :
  tensor_setitem_dim2 l k v σ = Ok (u, σ') →
  ∃ dt t t',
    σ !! l = Some (FloatTensor dt t) ∧ setitem_dim2_kernel t k v = Ok t' ∧
    σ' = <[l := FloatTensor dt t']> σ.
Proof.
  unfold tensor_setitem_dim2. unfold_M. intros H.
  destruct (σ !! l) as [[dt t| |]|] eqn:Hl; try done.
  destruct (setitem_dim2_kernel t k v) as [t'|] eqn:Ht; [|done].
  injection H as <-. eauto 10.
Qed.

Lemma index_select_run σ x ix cx cix r :
  σ !! x = Some cx → σ !! ix = Some cix →
  cell_index_select cx 0 cix = Ok r →
  torch_index_select x 0 ix σ
  = Ok (fresh (dom σ), <[fresh (dom σ) := r]> σ).
Proof.
  intros Hx Hix Hr. unfold torch_index_select. unfold_M.
  by rewrite Hx, Hix, Hr.
Qed.

Lemma index_select_inv σ x dim ix o σ' :
  torch_index_select x dim ix σ = Ok (o, σ') →
  ∃ cx cix r,
    σ !! x = Some cx ∧ σ !! ix = Some cix ∧
    cell_index_select cx dim cix = Ok r ∧
    σ !! o = None ∧ σ' = <[o := r]> σ.
Proof.
  unfold torch_index_select. unfold_M. intros H.
  destruct (σ !! x) as [cx|] eqn:Hx; [|done].
  destruct (σ !! ix) as [cix|] eqn:Hix; [|done].
  destruct (cell_index_select cx dim cix) as [r|] eqn:Hr; [|done].
  injection H as <- <-. exists cx, cix, r. split_and!; try done.
  apply not_elem_of_dom_1, is_fresh.
Qed.
End StoreRuns.

(** ** The projection and the mask on tensors of rank three *)

Section Projection.
Context {F : Type} `{!FloatOps F}.

Lemma linear_kernel_rank3 (t W : tensor F) B T D V :
  t_device t = t_device W → t_shape t = [B; T; D] → t_shape W = [V; D] →
  linear_kernel t W
  = Ok (Tensor (t_device t) [B; T; V]
          (n ← seq 0 (B * T);
           j ← seq 0 V;
           [dot (block D n (t_data t)) (block D j (t_data W))])).
Proof.
  intros Hd Ht HW. unfold linear_kernel.
  rewrite decide_True, Ht, HW by done. simpl.
  rewrite decide_True, Nat.mul_1_r by done. done.
Qed.

Lemma length_projection (f : nat → nat → F) N V :
  length (n ← seq 0 N; j ← seq 0 V; [f n j]) = N * V.
Proof.
  rewrite (length_bind_uniform _ _ V), length_seq; [done|].
  intros n _. rewrite (length_bind_uniform _ _ 1), length_seq; [lia|done].
Qed.

Lemma lookup_projection (f : nat → nat → F) N V n j :
  n < N → j < V →
  (n ← seq 0 N; j ← seq 0 V; [f n j]) !! (n * V + j) = Some (f n j).
Proof.
  intros Hn Hj.
  rewrite (lookup_bind_uniform _ _ V n j n); [|  |by apply lookup_seq_lt|done].
  - replace j with (j * 1 + 0) at 1 by lia.
    by rewrite (lookup_bind_uniform _ _ 1 j 0 j);
      [| |apply lookup_seq_lt|lia].
  - intros m _. rewrite (length_bind_uniform _ _ 1), length_seq; [lia|done].
Qed.
End Projection.

Lemma flat_index_lt B T V b s k :
  b < B → s < T → k < V → (b * T + s) * V + k < B * T * V.
Proof.
  intros Hb Hs Hk.
  assert ((b + 1) * T ≤ B * T) by (apply Nat.mul_le_mono_r; lia).
  assert ((b * T + s + 1) * V ≤ B * T * V) by (apply Nat.mul_le_mono_r; lia).
  lia.
Qed.

Lemma setitem_dim2_rank3 {A} (t : tensor A) B T V k j v :
  t_shape t = [B; T; V] → norm_index V k = Some j →
  setitem_dim2_kernel t k v
  = Ok (Tensor (t_device t) [B; T; V]
          (imap (λ i x, if decide (i mod V = j) then v else x) (t_data t))).
Proof.
  intros Ht Hk. unfold setitem_dim2_kernel. rewrite Ht, Hk.
  cbn [numel foldr]. do 2 f_equal. apply imap_ext. intros i x _.
  by rewrite Nat.div_1_r.
Qed.

Lemma flat_index_mod T V b s k : k < V → ((b * T + s) * V + k) mod V = k.
Proof.
  intros Hk. rewrite Nat.add_comm, Nat.Div0.mod_add. by apply Nat.mod_small.
Qed.

(** ** The methods of the model *)

Section GeneratorProperties.
Context {F CM Component Base LayerState : Type}.
Context {HF : FloatOps F} {HI : Imports F CM Component Base LayerState}.
Implicit Types (self : TransformerGeneratorModel Component Base).
Implicit Types (σ : store F).

(** A successful call of [output] projected the argument with the weight
    of [self.embeddings], wrote the mask into the new tensor and left
    every other object as it was. *)
Lemma output_inv self x σ o σ' :
  output self x σ = Ok (o, σ') →
  ∃ dt t W r out,
    σ !! x = Some (FloatTensor dt t) ∧
    σ !! weight (embeddings self) = Some (FloatTensor dt W) ∧
    linear_kernel t W = Ok r ∧
    setitem_dim2_kernel r (start_idx self) (neginf (floating dt)) = Ok out ∧
    σ !! o = None ∧ σ' = <[o := FloatTensor dt out]> σ.
Proof.
  unfold output. intros H.
  apply bind_inv in H as (o1 & σ1 & Hlin & H).
  apply F_linear_inv in Hlin as (dt & t & W & r & Hx & Hw & Hr & Hnew & ->).
  apply bind_inv in H as (d & σ2 & Hd & H).
  unfold_M. rewrite lookup_insert_eq in Hd. injection Hd as <- <-.
  destruct (tensor_setitem_dim2 _ _ _ _) as [[u σ3]|] eqn:Hset; [|done].
  apply setitem_dim2_inv in Hset as (dt' & t' & out & Hl & Hk & ->).
  rewrite lookup_insert_eq in Hl. injection Hl as <- <-.
  injection H as <- <-. rewrite insert_insert_eq.
  by exists dt, t, W, r, out.
Qed.

Lemma output_run self x σ dt t W r out :
  σ !! x = Some (FloatTensor dt t) →
  σ !! weight (embeddings self) = Some (FloatTensor dt W) →
  linear_kernel t W = Ok r →
  setitem_dim2_kernel r (start_idx self) (neginf (floating dt)) = Ok out →
  output self x σ
  = Ok (fresh (dom σ), <[fresh (dom σ) := FloatTensor dt out]> σ).
Proof.
  intros Hx Hw Hr Hout. unfold output.
  rewrite (bind_run _ _ _ _ _ (F_linear_run _ _ _ _ _ _ _ Hx Hw Hr)).
  unfold tensor_dtype at 1.
  erewrite bind_run; [|erewrite bind_run; [done|]; unfold deref;
    by rewrite lookup_insert_eq].
  erewrite bind_run;
    [|by eapply setitem_dim2_run; [apply lookup_insert_eq|]].
  by rewrite insert_insert_eq.
Qed.


(** A successful construction ran the base class constructor, read the
    embedding size, created the embeddings and called the two component
    classes, in this order, and stored what they returned. *)
Lemma init_inv opt0 dictionary man σ self σ' :
  __init__ opt0 dictionary man σ = Ok (self, σ') →
  ∃ es σ1 σ2 σ3,
    TorchGeneratorModel_init
      (dict_getitem dictionary (null_token dictionary))
      (dict_getitem dictionary (start_token dictionary))
      (dict_getitem dictionary (end_token dictionary)) σ
    = Ok (base self, σ1) ∧
    opt0 !! "embedding_size" = Some es ∧
    create_embeddings dictionary es
      (dict_getitem dictionary (null_token dictionary)) σ1
    = Ok (embeddings self, σ2) ∧
    build_encoder opt0 dictionary
      (Some (PyEmbedding (embeddings self)))
      (Some (PyInt (dict_getitem dictionary (null_token dictionary))))
      (Some PyNone)
      (Some (Manifest.encoder (default Manifest_default man))) σ2
    = Ok (encoder self, σ3) ∧
    build_decoder opt0 (Some (PyEmbedding (embeddings self)))
      (Some (Manifest.decoder (default Manifest_default man))) σ3
    = Ok (decoder self, σ') ∧
    pad_idx self = dict_getitem dictionary (null_token dictionary) ∧
    start_idx self = dict_getitem dictionary (start_token dictionary) ∧
    end_idx self = dict_getitem dictionary (end_token dictionary) ∧
    opt self = opt0.
Proof.
  unfold __init__. intros H.
  apply bind_inv in H as (b & σ1 & Hbase & H).
  apply bind_inv in H as (es & σ1' & Hes & H).
  unfold lift in Hes.
  destruct (opt0 !! "embedding_size") as [es'|] eqn:Hopt; [|done].
  injection Hes as <- <-.
  apply bind_inv in H as (emb & σ2 & Hemb & H).
  apply bind_inv in H as (enc & σ3 & Henc & H).
  apply bind_inv in H as (dec & σ4 & Hdec & H).
  injection H as <- <-. cbn. by exists es', σ1, σ2, σ3.
Qed.


(** C6. The three special-token indices are read from the dictionary
    under its null, start and end tokens; they are the arguments of the
    base class constructor; the padding index is the one given to
    [create_embeddings] and, as [padding_idx], to the encoder class. *)
Theorem init_special_token_indices opt0 dictionary man σ self σ' :
  __init__ opt0 dictionary man σ = Ok (self, σ') →
  pad_idx self = dict_getitem dictionary (null_token dictionary) ∧
  start_idx self = dict_getitem dictionary (start_token dictionary) ∧
  end_idx self = dict_getitem dictionary (end_token dictionary) ∧
  ∃ es σ1 σ2 σ3 enc_spec,
    TorchGeneratorModel_init (pad_idx self) (start_idx self) (end_idx self) σ
    = Ok (base self, σ1) ∧
    opt0 !! "embedding_size" = Some es ∧
    create_embeddings dictionary es (pad_idx self) σ1
    = Ok (embeddings self, σ2) ∧
    new (klass enc_spec)
      [("opt", PyOpt opt0);
       ("embedding", PyEmbedding (embeddings self));
       ("vocabulary_size", PyInt (Z.of_nat (dict_len dictionary)));
       ("padding_idx", PyInt (pad_idx self));
       ("reduction_type", PyNone);
       ("manifest", PyManifest (manifest enc_spec))] σ2
    = Ok (encoder self, σ3).
Proof.
  intros H.
  apply init_inv in H
    as (es & σ1 & σ2 & σ3 & Hbase & Hes & Hemb & Henc & _ & Hp & Hs & He & _).
  rewrite Hp, Hs, He. split_and!; try done.
  by exists es, σ1, σ2, σ3,
    (Manifest.encoder (default Manifest_default man)).
Qed.

(** C7. Without a [spec] argument, [build_decoder] calls the class of
    [ENCODER_DEFAULT_SPEC], which is [TransformerEncoder], with the
    encoder's default manifest; that spec differs from
    [DECODER_DEFAULT_SPEC].  The decoder default is the [decoder] field of
    the default manifest, and a model initialised without a manifest has
    its decoder built from it. *)
Theorem build_decoder_default_spec :
  (∀ opt0 embedding,
     build_decoder opt0 embedding None
     = new TransformerEncoder
         [("opt", PyOpt opt0);
          ("embedding", default PyNone embedding);
          ("manifest", PyManifest TransformerEncoder_Manifest)]) ∧
  (∀ opt0 embedding,
     build_decoder opt0 embedding None
     = build_decoder opt0 embedding (Some ENCODER_DEFAULT_SPEC)) ∧
  klass ENCODER_DEFAULT_SPEC ≠ klass DECODER_DEFAULT_SPEC ∧
  Manifest.decoder Manifest_default = DECODER_DEFAULT_SPEC ∧
  (∀ opt0 dictionary σ self σ',
     __init__ opt0 dictionary None σ = Ok (self, σ') →
     ∃ σ3,
       build_decoder opt0 (Some (PyEmbedding (embeddings self)))
         (Some DECODER_DEFAULT_SPEC) σ3
       = Ok (decoder self, σ') ∧
       new TransformerDecoder
         [("opt", PyOpt opt0);
          ("embedding", PyEmbedding (embeddings self));
          ("manifest", PyManifest TransformerDecoder_Manifest)] σ3
       = Ok (decoder self, σ')).
Proof.
  split_and!; try done.
  intros opt0 dictionary σ self σ' H.
  apply init_inv in H as (es & σ1 & σ2 & σ3 & _ & _ & _ & _ & Hdec & _).
  by exists σ3.
Qed.

(** C2. In a constructed model, [self.embeddings] is the module created
    by [create_embeddings], the same module is the [embedding] argument of
    both component classes, and every successful call of [output]
    projects its argument with the weight of that module: the result is
    the masked [F.linear] of the argument and that weight, whatever else
    the store holds. *)
Theorem output_shares_embedding_weight opt0 dictionary man σ0 self σ1 :
  __init__ opt0 dictionary man σ0 = Ok (self, σ1) →
  (∃ es σa σb σc enc_kw dec_kw,
     create_embeddings dictionary es (pad_idx self) σa
     = Ok (embeddings self, σb) ∧
     new (klass (Manifest.encoder (default Manifest_default man)))
       (("opt", PyOpt opt0)
        :: ("embedding", PyEmbedding (embeddings self)) :: enc_kw) σb
     = Ok (encoder self, σc) ∧
     new (klass (Manifest.decoder (default Manifest_default man)))
       (("opt", PyOpt opt0)
        :: ("embedding", PyEmbedding (embeddings self)) :: dec_kw) σc
     = Ok (decoder self, σ1)) ∧
  (∀ x σ o σ',
     output self x σ = Ok (o, σ') →
     ∃ dt t W r out,
       σ !! x = Some (FloatTensor dt t) ∧
       σ !! weight (embeddings self) = Some (FloatTensor dt W) ∧
       linear_kernel t W = Ok r ∧
       setitem_dim2_kernel r (start_idx self) (neginf (floating dt))
       = Ok out ∧
       σ' !! o = Some (FloatTensor dt out)) ∧
  (∀ x σ σ2,
     σ2 !! x = σ !! x →
     σ2 !! weight (embeddings self) = σ !! weight (embeddings self) →
     ∀ o σ', output self x σ = Ok (o, σ') →
     ∃ o2 σ2', output self x σ2 = Ok (o2, σ2') ∧ σ2' !! o2 = σ' !! o).
Proof.
  intros H.
  apply init_inv in H
    as (es & σa & σb & σc & _ & _ & Hemb & Henc & Hdec & Hp & _).
  split_and!.
  - rewrite Hp. by eexists es, σa, σb, σc, _, _.
  - intros x σ o σ' Ho.
    apply output_inv in Ho as (dt & t & W & r & out & ? & ? & ? & ? & ? & ->).
    exists dt, t, W, r, out. split_and!; try done. apply lookup_insert_eq.
  - intros x σ σ2 Hx Hw o σ' Ho.
    apply output_inv in Ho
      as (dt & t & W & r & out & Hx' & Hw' & Hr & Hout & _ & ->).
    rewrite <- Hx in Hx'. rewrite <- Hw in Hw'.
    eexists _, _. split; [by eapply output_run|].
    by rewrite !lookup_insert_eq.
Qed.

(** *** Reordering the decoder state *)

(** What a successful run of the comprehension from index [idx] on has
    done: one entry per layer, the layer's own reordering of the state
    found under the layer's index; the other keys are those of [acc]. *)
Lemma reorder_layers_ok (ls : list (Layer LayerState)) :
  ∀ idx (st : gmap Z LayerState) inds acc d,
  reorder_layers idx ls st inds acc = Ok d →
  (∀ i layer, ls !! i = Some layer →
     ∃ s v, st !! Z.of_nat (idx + i) = Some s ∧
            reorder_incremental_state layer s inds = Ok v ∧
            d !! Z.of_nat (idx + i) = Some v) ∧
  (∀ k : Z, (k < Z.of_nat idx ∨ Z.of_nat (idx + length ls) ≤ k)%Z →
     d !! k = acc !! k).
Proof.
  induction ls as [|layer ls IH]; intros idx st inds acc d H.
  - injection H as <-. split; [by intros []|done].
  - cbn [reorder_layers] in H. unfold dict_lookup in H.
    destruct (st !! Z.of_nat idx) as [s|] eqn:Hs; [|done]. cbn in H.
    destruct (reorder_incremental_state layer s inds) as [v|] eqn:Hv;
      [|done]. cbn in H.
    apply IH in H as [Hin Hout]. split.
    + intros [|i] layer' Hi.
      * injection Hi as <-. exists s, v. rewrite Nat.add_0_r.
        split_and!; try done.
        rewrite Hout by lia. apply lookup_insert_eq.
      * replace (idx + S i) with (S idx + i) by lia. by apply Hin.
    + intros k Hk. cbn [length] in Hk.
      rewrite Hout by lia. apply lookup_insert_ne. lia.
Qed.

(** The comprehension returns when every layer finds its entry and every
    layer's call returns. *)
Lemma reorder_layers_total (ls : list (Layer LayerState)) :
  ∀ idx (st : gmap Z LayerState) inds acc,
  (∀ i layer, ls !! i = Some layer →
     ∃ s v, st !! Z.of_nat (idx + i) = Some s ∧
            reorder_incremental_state layer s inds = Ok v) →
  ∃ d, reorder_layers idx ls st inds acc = Ok d.
Proof.
  induction ls as [|layer ls IH]; intros idx st inds acc H; [by eexists|].
  destruct (H 0 layer eq_refl) as (s & v & Hs & Hv).
  rewrite Nat.add_0_r in Hs. cbn [reorder_layers]. unfold dict_lookup.
  rewrite Hs. cbn. rewrite Hv. cbn. apply IH. intros i layer' Hi.
  replace (S idx + i) with (idx + S i) by lia. by apply H.
Qed.

(** A missing entry is a [KeyError] when the calls of the layers before
    it return. *)
Lemma reorder_layers_missing (ls : list (Layer LayerState)) :
  ∀ idx (st : gmap Z LayerState) inds acc m,
  m < length ls → st !! Z.of_nat (idx + m) = None →
  (∀ i layer s,
     i < m → ls !! i = Some layer → st !! Z.of_nat (idx + i) = Some s →
     ∃ v, reorder_incremental_state layer s inds = Ok v) →
  reorder_layers idx ls st inds acc = Raise KeyError.
Proof.
  induction ls as [|layer ls IH]; intros idx st inds acc m Hm Hnone Hcalls.
  - cbn in Hm. lia.
  - cbn [reorder_layers]. unfold dict_lookup.
    destruct (st !! Z.of_nat idx) as [s|] eqn:Hs; [|done]. cbn.
    destruct m as [|m].
    + rewrite Nat.add_0_r in Hnone. congruence.
    + destruct (Hcalls 0 layer s) as [v Hv];
        [lia|done|by rewrite Nat.add_0_r|].
      rewrite Hv. cbn. apply (IH _ _ _ _ m).
      * cbn in Hm. lia.
      * by replace (S idx + m) with (idx + S m) by lia.
      * intros i layer' s' Hi Hl Hs'. apply (Hcalls (S i)); [lia|done|].
        by replace (idx + S i) with (S idx + i) by lia.
Qed.

(** The keys of a returned dict. *)
Lemma reorder_layers_dom (ls : list (Layer LayerState)) :
  ∀ (st : gmap Z LayerState) inds d,
  reorder_layers 0 ls st inds ∅ = Ok d →
  dom d = list_to_set (Z.of_nat <$> seq 0 (length ls)).
Proof.
  intros st inds d Hd. apply reorder_layers_ok in Hd as [Hin Hout].
  apply set_eq. intros k.
  rewrite elem_of_dom, elem_of_list_to_set, list_elem_of_fmap. split.
  - intros Hk.
    destruct (decide (0 ≤ k < Z.of_nat (length ls)))%Z as [Hr|Hr].
    + exists (Z.to_nat k). split; [lia|]. apply elem_of_seq. lia.
    + rewrite Hout, lookup_empty in Hk by (cbn; lia). by destruct Hk.
  - intros (i & -> & Hi). apply elem_of_seq in Hi.
    destruct (lookup_lt_is_Some_2 ls i) as [layer Hl]; [lia|].
    destruct (Hin i layer Hl) as (s & v & _ & _ & Hd). by exists v.
Qed.

(** C4. When the incremental state has an entry for every layer index
    and each layer's own reordering of its entry returns, the method
    returns a dict that maps every layer index to what that layer's
    [reorder_incremental_state] returned for the entry and [inds]. *)
Theorem reorder_decoder_incremental_state_per_layer
    self (incremental_state : gmap Z LayerState) inds :
  (∀ idx, idx < length (layers (decoder self)) →
     is_Some (incremental_state !! Z.of_nat idx)) →
  (∀ idx layer s,
     layers (decoder self) !! idx = Some layer →
     incremental_state !! Z.of_nat idx = Some s →
     ∃ v, reorder_incremental_state layer s inds = Ok v) →
  ∃ d,
    reorder_decoder_incremental_state self incremental_state inds = Ok d ∧
    ∀ idx layer,
      layers (decoder self) !! idx = Some layer →
      ∃ s v,
        incremental_state !! Z.of_nat idx = Some s ∧
        reorder_incremental_state layer s inds = Ok v ∧
        d !! Z.of_nat idx = Some v.
Proof.
  intros Hst Hcalls. unfold reorder_decoder_incremental_state.
  destruct (reorder_layers_total (layers (decoder self)) 0
              incremental_state inds ∅) as [d Hd].
  - intros i layer Hi.
    destruct (Hst i) as [s Hs]; [by eapply lookup_lt_Some|].
    destruct (Hcalls i layer s Hi Hs) as [v Hv]. by exists s, v.
  - exists d. split; [done|]. intros idx layer Hl.
    apply reorder_layers_ok in Hd as [Hin _]. by apply Hin.
Qed.

(** C8. When the input has an entry for every layer index and the
    layers' own reorderings return, a dict is returned, and whatever
    other keys the input has, the keys of a returned dict are exactly
    the layer indices 0..L-1.  When the input lacks the entry of some
    layer index, no dict is returned, partial or other; the failure is
    the [KeyError] of the lookup when the layers called before that
    index return, whatever the layers after it would do. *)
Theorem reorder_decoder_incremental_state_keys
    self (incremental_state : gmap Z LayerState) inds :
  ((∀ idx, idx < length (layers (decoder self)) →
      is_Some (incremental_state !! Z.of_nat idx)) →
   (∀ idx layer s,
      layers (decoder self) !! idx = Some layer →
      incremental_state !! Z.of_nat idx = Some s →
      ∃ v, reorder_incremental_state layer s inds = Ok v) →
   ∃ d,
     reorder_decoder_incremental_state self incremental_state inds = Ok d ∧
     dom d
     = list_to_set (Z.of_nat <$> seq 0 (length (layers (decoder self))))) ∧
  (∀ d,
     reorder_decoder_incremental_state self incremental_state inds = Ok d →
     dom d
     = list_to_set (Z.of_nat <$> seq 0 (length (layers (decoder self))))) ∧
  (∀ idx,
     idx < length (layers (decoder self)) →
     incremental_state !! Z.of_nat idx = None →
     (∀ d,
        reorder_decoder_incremental_state self incremental_state inds
        ≠ Ok d) ∧
     ((∀ i layer s,
         i < idx →
         layers (decoder self) !! i = Some layer →
         incremental_state !! Z.of_nat i = Some s →
         ∃ v, reorder_incremental_state layer s inds = Ok v) →
      reorder_decoder_incremental_state self incremental_state inds
      = Raise KeyError)).
Proof.
  unfold reorder_decoder_incremental_state. split_and!.
  - intros Hst Hcalls.
    destruct (reorder_layers_total (layers (decoder self)) 0
                incremental_state inds ∅) as [d Hd].
    + intros i layer Hi.
      destruct (Hst i) as [s Hs]; [by eapply lookup_lt_Some|].
      destruct (Hcalls i layer s Hi Hs) as [v Hv]. by exists s, v.
    + exists d. split; [done|]. by eapply reorder_layers_dom.
  - intros d Hd. by eapply reorder_layers_dom.
  - intros idx Hidx Hnone. split.
    + intros d Hd. apply reorder_layers_ok in Hd as [Hin _].
      destruct (lookup_lt_is_Some_2 (layers (decoder self)) idx)
        as [layer Hl]; [done|].
      destruct (Hin idx layer Hl) as (s & v & Hs & _). cbn in Hs.
      congruence.
    + intros Hcalls. by apply (reorder_layers_missing _ 0 _ _ _ idx).
Qed.

(** *** Reordering the encoder states *)

Lemma index_select_kernel_rows {A} (t : tensor A) (ix : tensor Z) n rest :
  tensor_wf t → t_shape t = n :: rest →
  t_device t = t_device ix → length (t_shape ix) ≤ 1 →
  Forall (λ i, 0 ≤ i < Z.of_nat n)%Z (t_data ix) →
  ∃ t',
    index_select_kernel t 0 ix = Ok t' ∧
    t_shape t' = length (t_data ix) :: rest ∧
    ∀ i j, t_data ix !! i = Some j → row t' i = row t (Z.to_nat j).
Proof.
  intros [Hlen _] Hsh Hdev Hrank Hin. unfold index_select_kernel.
  rewrite !decide_True, Hsh by done. cbn [lookup list_lookup].
  rewrite decide_True by done. eexists. split; [done|]. split; [done|].
  intros i j Hj. unfold row. rewrite Hsh. cbn [t_shape t_data tail].
  cbn [take drop numel foldr seq]. rewrite bind_singleton.
  rewrite (block_bind_uniform _ _ _ i j); [done| |done].
  intros y Hy. rewrite Forall_forall in Hin. apply Hin in Hy.
  apply length_block. rewrite Hlen, Hsh. cbn [numel foldr].
  apply Nat.mul_le_mono_r. lia.
Qed.

Lemma cell_index_select_rows (c : cell F) (ix : tensor Z) n rest :
  cell_wf c → cell_shape c = n :: rest →
  cell_device c = t_device ix → length (t_shape ix) ≤ 1 →
  Forall (λ i, 0 ≤ i < Z.of_nat n)%Z (t_data ix) →
  ∃ c',
    cell_index_select c 0 (LongTensor ix) = Ok c' ∧
    cell_shape c' = length (t_data ix) :: rest ∧
    ∀ i j, t_data ix !! i = Some j → cell_row c' i = cell_row c (Z.to_nat j).
Proof.
  intros Hwf Hsh Hdev Hrank Hin.
  destruct c as [dt t|t|t]; cbn in *;
    destruct (index_select_kernel_rows t ix n rest Hwf Hsh Hdev Hrank Hin)
      as (t' & -> & Hsh' & Hrows);
    eexists; (split; [done|]); (split; [done|]);
    intros i j Hj; cbn; by rewrite (Hrows i j Hj).
Qed.

Lemma torch_index_select_ok σ x ix cx cix r :
  σ !! x = Some cx → σ !! ix = Some cix →
  cell_index_select cx 0 cix = Ok r →
  ∃ o σ',
    torch_index_select x 0 ix σ = Ok (o, σ') ∧
    σ ⊆ σ' ∧ σ !! o = None ∧ σ' !! o = Some r.
Proof.
  intros Hx Hix Hr. eexists _, _.
  split; [by eapply index_select_run|].
  assert (σ !! fresh (dom σ) = None) by apply not_elem_of_dom_1, is_fresh.
  split_and!; [by apply insert_subseteq|done|apply lookup_insert_eq].
Qed.

(** The conversion of a list of indices: a new int64 vector on the device
    of [enc]. *)
Lemma indices_list_ok σ enc ce xs :
  σ !! enc = Some ce → Forall int64_ok xs →
  ∃ l σ' ix,
    (t ← torch_LongTensor xs; d ← tensor_device enc; tensor_to t d) σ
    = Ok (l, σ') ∧
    σ ⊆ σ' ∧ σ !! l = None ∧ σ' !! l = Some (LongTensor ix) ∧
    t_device ix = cell_device ce ∧ t_shape ix = [length xs] ∧
    t_data ix = xs.
Proof.
  intros Henc Hxs.
  set (l1 := fresh (dom σ)).
  assert (σ !! l1 = None) as Hl1 by apply not_elem_of_dom_1, is_fresh.
  set (σ1 := <[l1 := LongTensor (Tensor cpu [length xs] xs)]> σ).
  assert (σ ⊆ σ1) as Hσ1 by by apply insert_subseteq.
  assert (torch_LongTensor xs σ = Ok (l1, σ1)) as Hrun1.
  { unfold torch_LongTensor. by rewrite decide_True. }
  rewrite (bind_run _ _ _ _ _ Hrun1).
  assert (σ1 !! enc = Some ce) as Henc1 by by eapply lookup_weaken.
  assert (tensor_device enc σ1 = Ok (cell_device ce, σ1)) as Hrun2.
  { unfold tensor_device. unfold_M. by rewrite Henc1. }
  rewrite (bind_run _ _ _ _ _ Hrun2).
  unfold tensor_to. unfold_M. subst σ1. rewrite lookup_insert_eq. cbn.
  case_decide as Hd.
  - exists l1, (<[l1 := LongTensor (Tensor cpu [length xs] xs)]> σ),
      (Tensor cpu [length xs] xs).
    split_and!; try done. apply lookup_insert_eq.
  - set (σ1 := <[l1 := _]> σ) in *. set (l2 := fresh (dom σ1)).
    assert (σ1 !! l2 = None) as Hl2 by apply not_elem_of_dom_1, is_fresh.
    exists l2,
      (<[l2 := LongTensor (Tensor (cell_device ce) [length xs] xs)]> σ1),
      (Tensor (cell_device ce) [length xs] xs).
    split_and!; try done.
    + etrans; [exact Hσ1|]. by apply insert_subseteq.
    + destruct (σ !! l2) eqn:E; [|done].
      eapply lookup_weaken in E; [|exact Hσ1]. congruence.
    + apply lookup_insert_eq.
Qed.

(** C3. For tensors [enc] and [mask] on one device and an index
    sequence, given as a list or as an index vector on that device, whose
    elements address rows of both, the method returns two new tensors:
    row [i] of the first is row [indices[i]] of [enc] and row [i] of the
    second is row [indices[i]] of [mask].  The sequence is used as an
    int64 vector on the device of [enc]. *)
Theorem reorder_encoder_states_selects_rows
    self σ enc mask ce cm indices idxs ne nm reste restm :
  σ !! enc = Some ce → σ !! mask = Some cm →
  cell_wf ce → cell_wf cm →
  cell_shape ce = ne :: reste → cell_shape cm = nm :: restm →
  cell_device cm = cell_device ce →
  indices_on σ (cell_device ce) indices idxs →
  Forall (λ i, 0 ≤ i < Z.of_nat ne ∧ i < Z.of_nat nm)%Z idxs →
  ∃ enc' mask' σ' ce' cm' lix ix,
    reorder_encoder_states self (enc, mask) indices σ
    = Ok ((enc', mask'), σ') ∧
    σ' !! enc' = Some ce' ∧ σ' !! mask' = Some cm' ∧
    cell_shape ce' = length idxs :: reste ∧
    cell_shape cm' = length idxs :: restm ∧
    (σ' !! lix = Some (LongTensor ix) ∧ t_data ix = idxs ∧
     t_device ix = cell_device ce) ∧
    ∀ i j, idxs !! i = Some j →
      cell_row ce' i = cell_row ce (Z.to_nat j) ∧
      cell_row cm' i = cell_row cm (Z.to_nat j).
Proof.
  intros Henc Hmask Hwfe Hwfm Hshe Hshm Hdev Hidx Hrange.
  assert (∃ lix σa ix,
    (match indices with
     | IndTensor t => mret t
     | IndList xs =>
         t ← torch_LongTensor xs; d ← tensor_device enc; tensor_to t d
     end) σ = Ok (lix, σa) ∧
    σ ⊆ σa ∧ σa !! lix = Some (LongTensor ix) ∧ t_data ix = idxs ∧
    t_device ix = cell_device ce ∧ length (t_shape ix) ≤ 1)
    as (lix & σa & ix & Hconv & Hσa & Hlix & Hdata & Hixdev & Hrank).
  { destruct indices as [l|xs]; cbn in Hidx.
    - destruct Hidx as (ix & Hl & Hd & Hdv & Hr). by exists l, σ, ix.
    - subst xs.
      destruct (indices_list_ok σ enc ce idxs Henc)
        as (l & σa & ix & Hrun & Hext & _ & Hl & Hdv & Hsh & Hd).
      + assert (Forall (λ d, int64_ok (Z.of_nat d)) (cell_shape ce)) as Hb
          by (destruct ce; apply Hwfe).
        rewrite Hshe in Hb. apply Forall_cons_1 in Hb as [Hne _].
        eapply Forall_impl; [exact Hrange|]. unfold int64_ok in *.
        intros z Hz. cbn in Hz. lia.
      + exists l, σa, ix. split_and!; try done. rewrite Hsh. cbn. lia. }
  destruct (cell_index_select_rows ce ix ne reste)
    as (ce' & Hse & Hshe' & Hrowe); try done.
  { rewrite Hdata. eapply Forall_impl; [exact Hrange|]. cbn. lia. }
  destruct (cell_index_select_rows cm ix nm restm)
    as (cm' & Hsm & Hshm' & Hrowm); try done.
  { congruence. }
  { rewrite Hdata. eapply Forall_impl; [exact Hrange|]. cbn. lia. }
  destruct (torch_index_select_ok σa enc lix ce (LongTensor ix) ce')
    as (o1 & σb & Hrun1 & Hσb & _ & Ho1); try done.
  { by eapply lookup_weaken. }
  destruct (torch_index_select_ok σb mask lix cm (LongTensor ix) cm')
    as (o2 & σc & Hrun2 & Hσc & _ & Ho2); try done.
  { eapply lookup_weaken; [|exact Hσb]. by eapply lookup_weaken. }
  { by eapply lookup_weaken. }
  exists o1, o2, σc, ce', cm', lix, ix. split_and!; try done.
  - unfold reorder_encoder_states.
    rewrite (bind_run _ _ _ _ _ Hconv), (bind_run _ _ _ _ _ Hrun1),
      (bind_run _ _ _ _ _ Hrun2). done.
  - by eapply lookup_weaken.
  - by rewrite Hshe', Hdata.
  - by rewrite Hshm', Hdata.
  - eapply lookup_weaken; [|exact Hσc]. by eapply lookup_weaken.
  - intros i j Hj. rewrite <- Hdata in Hj. split; auto.
Qed.

(** *** Frame *)

Lemma torch_LongTensor_ext σ xs l σ' :
  torch_LongTensor xs σ = Ok (l, σ') → σ ⊆ σ'.
Proof.
  unfold torch_LongTensor. case_decide; [|done].
  intros [Hl ->]%alloc_fresh. by apply insert_subseteq.
Qed.

Lemma tensor_device_ext σ l d σ' :
  tensor_device l σ = Ok (d, σ') → σ' = σ.
Proof.
  unfold tensor_device. unfold_M. destruct (σ !! l); [|done].
  by intros [= _ <-].
Qed.

Lemma tensor_to_ext σ l d l' σ' :
  tensor_to l d σ = Ok (l', σ') → σ ⊆ σ'.
Proof.
  unfold tensor_to. intros (c & σ1 & Hc & H)%bind_inv.
  unfold deref in Hc. destruct (σ !! l); [|done].
  injection Hc as <- <-. case_decide.
  - by injection H as <- <-.
  - apply alloc_fresh in H as [Hl ->]. by apply insert_subseteq.
Qed.

Lemma torch_index_select_ext σ x dim ix o σ' :
  torch_index_select x dim ix σ = Ok (o, σ') →
  σ ⊆ σ' ∧ σ !! o = None ∧ is_Some (σ' !! o).
Proof.
  intros (cx & cix & r & _ & _ & _ & Ho & ->)%index_select_inv.
  split_and!; [by apply insert_subseteq|done|].
  rewrite lookup_insert_eq. by eexists.
Qed.

Lemma lookup_None_weaken σ σ' l : σ ⊆ σ' → σ' !! l = None → σ !! l = None.
Proof.
  intros Hext Hl. destruct (σ !! l) eqn:E; [|done].
  eapply lookup_weaken in E; [|exact Hext]. congruence.
Qed.

(** C9. After a successful [reorder_encoder_states], every tensor of the
    store before the call, [enc] and [mask] among them, holds what it
    held, and the two results are new, distinct tensors.  After a
    successful [output], every tensor of the store before the call, the
    argument among them, holds what it held, and the masked result is a
    new tensor. *)
Theorem methods_leave_arguments_unchanged self σ :
  (∀ enc mask indices enc' mask' σ',
     reorder_encoder_states self (enc, mask) indices σ
     = Ok ((enc', mask'), σ') →
     σ !! enc' = None ∧ σ !! mask' = None ∧ enc' ≠ mask' ∧
     ∀ l c, σ !! l = Some c → σ' !! l = Some c) ∧
  (∀ x o σ',
     output self x σ = Ok (o, σ') →
     σ !! o = None ∧ σ' !! x = σ !! x ∧
     ∀ l c, σ !! l = Some c → σ' !! l = Some c).
Proof.
  split.
  - intros enc mask indices enc' mask' σ' H.
    unfold reorder_encoder_states in H.
    apply bind_inv in H as (lix & σa & Hconv & H).
    apply bind_inv in H as (o1 & σb & Hsel1 & H).
    apply bind_inv in H as (o2 & σc & Hsel2 & H).
    injection H as <- <- <-.
    apply torch_index_select_ext in Hsel1 as (Hσb & Ho1 & Ho1').
    apply torch_index_select_ext in Hsel2 as (Hσc & Ho2 & _).
    assert (σ ⊆ σa) as Hσa.
    { destruct indices as [l|xs].
      - by injection Hconv as <- <-.
      - apply bind_inv in Hconv as (l1 & σ1 & Hlt & Hconv).
        apply bind_inv in Hconv as (d & σ2 & Hdv & Hto).
        apply tensor_device_ext in Hdv as ->.
        apply torch_LongTensor_ext in Hlt. apply tensor_to_ext in Hto.
        by etrans. }
    split_and!.
    + by eapply lookup_None_weaken.
    + eapply lookup_None_weaken; [|exact Ho2]. by etrans.
    + intros ->. destruct Ho1' as [c Hc]. congruence.
    + intros l c Hl. eapply lookup_weaken; [exact Hl|].
      etrans; [exact Hσa|]. by etrans.
  - intros x o σ' H.
    apply output_inv in H
      as (dt & t & W & r & out & Hx & _ & _ & _ & Ho & ->).
    split_and!; [done| |].
    + rewrite lookup_insert_ne; [done|]. intros ->. congruence.
    + intros l c Hl. rewrite lookup_insert_ne; [done|]. intros ->. congruence.
Qed.

End GeneratorProperties.

(** ** The theorems at the small instance *)



Lemma output_shares_embedding_weight_witness :
  __init__ ex_opt ex_dictionary None ∅ = Ok (ex_model, ex_store0) ∧
  ∃ dt t W r out,
    ex_store !! 1 = Some (FloatTensor dt t) ∧
    ex_store !! weight (embeddings ex_model) = Some (FloatTensor dt W) ∧
    linear_kernel t W = Ok r ∧
    setitem_dim2_kernel r (start_idx ex_model) (neginf (floating dt))
    = Ok out ∧
    <[5 := FloatTensor float32
             (Tensor cpu [1; 2; 3] [5; - 10 ^ 20; 11; 7; - 10 ^ 20; 15]%Z)]>
      ex_store !! 5
    = Some (FloatTensor dt out).
Proof.
  assert (__init__ ex_opt ex_dictionary None ∅ = Ok (ex_model, ex_store0))
    as Hinit by (vm_compute; reflexivity).
  split; [exact Hinit|].
  destruct (output_shares_embedding_weight ex_opt ex_dictionary None ∅
              ex_model ex_store0 Hinit) as (_ & Hout & _).
  apply (Hout 1 ex_store 5). vm_compute. reflexivity.
Defined.

Lemma reorder_encoder_states_selects_rows_witness :
  ∃ enc' mask' σ' ce' cm' lix ix,
    reorder_encoder_states ex_model (2, 3) (IndList [2; 0]%Z) ex_store
    = Ok ((enc', mask'), σ') ∧
    σ' !! enc' = Some ce' ∧ σ' !! mask' = Some cm' ∧
    cell_shape ce' = [2; 1; 2] ∧ cell_shape cm' = [2; 1] ∧
    (σ' !! lix = Some (LongTensor ix) ∧ t_data ix = [2; 0]%Z ∧
     t_device ix = cpu) ∧
    ∀ i j, [2; 0]%Z !! i = Some j →
      cell_row ce' i = cell_row (FloatTensor float32 ex_enc) (Z.to_nat j) ∧
      cell_row cm' i = cell_row (BoolTensor ex_mask) (Z.to_nat j).
Proof.
  apply (reorder_encoder_states_selects_rows ex_model ex_store 2 3
           (FloatTensor float32 ex_enc) (BoolTensor ex_mask)
           (IndList [2; 0]%Z) [2; 0]%Z 3 3 [1; 2] [1]);
    try reflexivity.
  - split; [reflexivity|]. repeat constructor; unfold int64_ok; simpl; lia.
  - split; [reflexivity|]. repeat constructor; unfold int64_ok; simpl; lia.
  - repeat constructor; simpl; lia.
Defined.

Lemma reorder_decoder_incremental_state_per_layer_witness :
  ∃ d,
    reorder_decoder_incremental_state ex_model ex_state ex_index = Ok d ∧
    ∀ idx layer,
      layers (decoder ex_model) !! idx = Some layer →
      ∃ s v,
        ex_state !! Z.of_nat idx = Some s ∧
        reorder_incremental_state layer s ex_index = Ok v ∧
        d !! Z.of_nat idx = Some v.
Proof.
  apply (reorder_decoder_incremental_state_per_layer ex_model ex_state
           ex_index).
  - intros [|[|idx]] Hidx; [by eexists..|simpl in Hidx; lia].
  - intros [|[|idx]] layer s Hl Hs; simpl in Hl; [| |discriminate];
      injection Hl as <-; eexists; reflexivity.
Defined.


Lemma init_special_token_indices_witness :
  pad_idx ex_model = 0%Z ∧ start_idx ex_model = 1%Z ∧
  end_idx ex_model = 2%Z ∧
  ∃ es σ1 σ2 σ3 enc_spec,
    TorchGeneratorModel_init 0%Z 1%Z 2%Z ∅ = Ok (base ex_model, σ1) ∧
    ex_opt !! "embedding_size" = Some es ∧
    create_embeddings ex_dictionary es 0%Z σ1
    = Ok (embeddings ex_model, σ2) ∧
    new (klass enc_spec)
      [("opt", PyOpt ex_opt);
       ("embedding", PyEmbedding (embeddings ex_model));
       ("vocabulary_size", PyInt 3);
       ("padding_idx", PyInt 0);
       ("reduction_type", PyNone);
       ("manifest", PyManifest (manifest enc_spec))] σ2
    = Ok (encoder ex_model, σ3).
Proof.
  apply (init_special_token_indices (HI := ex_imports)
           ex_opt ex_dictionary None ∅ ex_model ex_store0).
  vm_compute. reflexivity.
Defined.

Lemma build_decoder_default_spec_witness :
  build_decoder ex_opt None None ex_store0
  = Ok ((TransformerEncoder,
         [("opt", PyOpt ex_opt); ("embedding", PyNone);
          ("manifest", PyManifest ())]), ex_store0) ∧
  ∃ σ3,
    new TransformerDecoder
      [("opt", PyOpt ex_opt);
       ("embedding", PyEmbedding (embeddings ex_model));
       ("manifest", PyManifest TransformerDecoder_Manifest)] σ3
    = Ok (decoder ex_model, ex_store0).
Proof.
  destruct (build_decoder_default_spec (HI := ex_imports))
    as (Hdef & _ & _ & _ & Hinit).
  split.
  - rewrite Hdef. reflexivity.
  - destruct (Hinit ex_opt ex_dictionary ∅ ex_model ex_store0)
      as (σ3 & _ & Hnew); [vm_compute; reflexivity|].
    by exists σ3.
Defined.

Lemma reorder_decoder_incremental_state_keys_witness :
  (∃ d,
     reorder_decoder_incremental_state ex_model ex_state ex_index = Ok d ∧
     dom d = {[ 0%Z; 1%Z ]}) ∧
  reorder_decoder_incremental_state (Imports0 := ex_imports_raising)
    ex_model {[ 1%Z := [20; 21; 22]%Z; 7%Z := [70]%Z ]} ex_index
  = Raise KeyError.
Proof.
  split.
  - destruct (reorder_decoder_incremental_state_keys ex_model ex_state
                ex_index) as (Hreturns & _ & _).
    destruct Hreturns as (d & Hd & Hdom).
    + intros [|[|idx]] Hidx; [by eexists..|simpl in Hidx; lia].
    + intros [|[|idx]] layer s Hl Hs; simpl in Hl; [| |discriminate];
        injection Hl as <-; eexists; reflexivity.
    + exists d. split; [exact Hd|]. rewrite Hdom. vm_compute. reflexivity.
  - destruct (reorder_decoder_incremental_state_keys
                (HI := ex_imports_raising) ex_model
                {[ 1%Z := [20; 21; 22]%Z; 7%Z := [70]%Z ]} ex_index)
      as (_ & _ & Hmiss).
    destruct (Hmiss 0) as [_ Hkey]; [simpl; lia|reflexivity|].
    apply Hkey. intros i layer s Hi. lia.
Defined.

Lemma methods_leave_arguments_unchanged_witness :
  (∀ l c, ex_store !! l = Some c →
     <[6 := BoolTensor (Tensor cpu [2; 1] [true; true])]>
       (<[5 := FloatTensor float32 (Tensor cpu [2; 1; 2] [9; 10; 5; 6]%Z)]>
          ex_store) !! l = Some c) ∧
  (∀ l c, ex_store !! l = Some c →
     <[5 := FloatTensor float32
              (Tensor cpu [1; 2; 3] [5; - 10 ^ 20; 11; 7; - 10 ^ 20; 15]%Z)]>
       ex_store !! l = Some c).
Proof.
  destruct (methods_leave_arguments_unchanged ex_model ex_store)
    as [Hreorder Houtput].
  split.
  - apply (Hreorder 2 3 (IndTensor 4) 5 6). vm_compute. reflexivity.
  - apply (Houtput 1 5). vm_compute. reflexivity.
Defined.

(** ** Outside the preconditions *)

(** An activation without a time dimension: the projection succeeds and
    the masking assignment has too many indices. *)
Example output_rank2_raises :
  output ex_model 1
    (<[1 := FloatTensor float32 (Tensor cpu [2; 2] [5; 6; 7; 8]%Z)]>
       ex_store0)
  = Raise IndexError.
Proof. vm_compute. reflexivity. Qed.

(** A start index beyond the vocabulary. *)
Example output_start_idx_out_of_range_raises :
  output {| base := (0, 3, 2)%Z; pad_idx := 0; start_idx := 3;
            end_idx := 2; opt := ex_opt; embeddings := {| weight := 0 |};
            encoder := encoder ex_model; decoder := decoder ex_model |}
    1 ex_store
  = Raise IndexError.
Proof. vm_compute. reflexivity. Qed.

(** An index that addresses no row of [enc]. *)
Example reorder_encoder_states_out_of_range_raises :
  reorder_encoder_states ex_model (2, 3) (IndList [3]%Z) ex_store
  = Raise IndexError.
Proof. vm_compute. reflexivity. Qed.

(** The same sequence as a list and as an index vector selects the same
    rows. *)
Example reorder_encoder_states_list_and_tensor :
  ∃ e1 m1 σ1 e2 m2 σ2,
    reorder_encoder_states ex_model (2, 3) (IndList [2; 0]%Z) ex_store
    = Ok ((e1, m1), σ1) ∧
    reorder_encoder_states ex_model (2, 3) (IndTensor 4) ex_store
    = Ok ((e2, m2), σ2) ∧
    σ1 !! e1 = σ2 !! e2 ∧ σ1 !! m1 = σ2 !! m2 ∧
    σ1 !! e1
    = Some (FloatTensor float32 (Tensor cpu [2; 1; 2] [9; 10; 5; 6]%Z)).
Proof. eexists _, _, _, _, _, _. split_and!; vm_compute; reflexivity. Qed.

(** A layer whose own call raises is reported before a later missing
    entry is looked up. *)
Example reorder_layers_first_failure_wins :
  reorder_layers 0
    [ {| reorder_incremental_state := λ (_ : list Z) _, Raise RuntimeError |};
      ex_layer ]
    {[ 0%Z := [10]%Z ]} ex_index ∅
  = Raise RuntimeError.
Proof. reflexivity. Qed.

(** * Further properties *)

(** ** Selection of rows *)

Lemma bind_blocks_seq {A} (sz n : nat) (d : list A) :
  length d = n * sz →
  (seq 0 n ≫= λ i, block sz i d) = d.
Proof.
  revert d. induction n as [|n IH]; intros d Hd.
  - by destruct d.
  - rewrite <- cons_seq, bind_cons, <- fmap_S_seq, list_fmap_bind.
    trans (take sz d ++ drop sz d); [|apply take_drop]. f_equal.
    rewrite <- (IH (drop sz d)) by (rewrite length_drop; lia).
    apply list_bind_ext; [|done]. intros i. unfold block. cbn.
    rewrite drop_drop. repeat f_equal; lia.
Qed.

Lemma index_select_kernel_ok {A} (t : tensor A) (ix : tensor Z) n rest :
  t_shape t = n :: rest →
  t_device t = t_device ix → length (t_shape ix) ≤ 1 →
  Forall (λ i, 0 ≤ i < Z.of_nat n)%Z (t_data ix) →
  index_select_kernel t 0 ix
  = Ok (Tensor (t_device t) (length (t_data ix) :: rest)
          (t_data ix ≫= λ i, block (numel rest) (Z.to_nat i) (t_data t))).
Proof.
  intros Hsh Hdev Hrank Hin. unfold index_select_kernel.
  rewrite !decide_True, Hsh by done. cbn [lookup list_lookup].
  rewrite decide_True by done.
  cbn [take drop numel foldr seq]. by rewrite bind_singleton.
Qed.

Lemma index_select_kernel_out_of_range {A} (t : tensor A) (ix : tensor Z)
    n rest :
  t_shape t = n :: rest → numel (t_shape t) ≠ 0 →
  t_device t = t_device ix → length (t_shape ix) ≤ 1 →
  ¬ Forall (λ i, 0 ≤ i < Z.of_nat n)%Z (t_data ix) →
  index_select_kernel t 0 ix = Raise IndexError.
Proof.
  intros Hsh Hnum Hdev Hrank Hin. unfold index_select_kernel.
  rewrite !decide_True by done. rewrite decide_False by done.
  rewrite Hsh. cbn [lookup list_lookup]. by rewrite decide_False.
Qed.

Section MoreGeneratorProperties.
Context {F CM Component Base LayerState : Type}.
Context {HF : FloatOps F} {HI : Imports F CM Component Base LayerState}.
Implicit Types (self : TransformerGeneratorModel Component Base).
Implicit Types (σ : store F).

(** The selection reads of the index vector its device, its elements and
    that it has at most one dimension. *)
Lemma cell_index_select_ext (c : cell F) (ix ix' : tensor Z) :
  t_device ix = t_device ix' → t_data ix = t_data ix' →
  length (t_shape ix) ≤ 1 → length (t_shape ix') ≤ 1 →
  cell_index_select c 0 (LongTensor ix)
  = cell_index_select c 0 (LongTensor ix').
Proof.
  intros Hd Hdata Hr Hr'.
  destruct c; cbn; unfold index_select_kernel; rewrite Hd, Hdata;
    by rewrite (decide_True (P := length (t_shape ix) ≤ 1)),
         (decide_True (P := length (t_shape ix') ≤ 1)).
Qed.

Lemma torch_index_select_raises σ x ix cx cix e :
  σ !! x = Some cx → σ !! ix = Some cix →
  cell_index_select cx 0 cix = Raise e →
  torch_index_select x 0 ix σ = Raise e.
Proof.
  intros Hx Hix Hr. unfold torch_index_select. unfold_M.
  by rewrite Hx, Hix, Hr.
Qed.

(** The first step of [reorder_encoder_states]: whatever form the indices
    have, the two selections run with an index vector on the device of
    [enc] that holds the sequence, in a store that extends the given
    one. *)
Lemma reorder_encoder_states_eval self σ enc mask ce indices idxs :
  σ !! enc = Some ce →
  indices_on σ (cell_device ce) indices idxs → Forall int64_ok idxs →
  ∃ lix σa ix,
    reorder_encoder_states self (enc, mask) indices σ
    = (enc ← torch_index_select enc 0 lix;
       mask ← torch_index_select mask 0 lix;
       mret (enc, mask)) σa ∧
    σ ⊆ σa ∧ σa !! lix = Some (LongTensor ix) ∧ t_data ix = idxs ∧
    t_device ix = cell_device ce ∧ length (t_shape ix) ≤ 1.
Proof.
  intros Henc Hidx Hok. unfold reorder_encoder_states.
  destruct indices as [l|xs]; cbn in Hidx.
  - destruct Hidx as (ix & Hl & Hd & Hdv & Hr). by exists l, σ, ix.
  - subst xs.
    destruct (indices_list_ok σ enc ce idxs Henc Hok)
      as (l & σa & ix & Hrun & Hext & _ & Hl & Hdv & Hsh & Hd).
    exists l, σa, ix. rewrite (bind_run _ _ _ _ _ Hrun).
    split_and!; try done. rewrite Hsh. cbn. lia.
Qed.

(** Both selections succeed: the method returns two new tensors that
    hold the selections. *)
Lemma reorder_encoder_states_run
    self σ enc mask ce cm indices idxs ce' cm' :
  σ !! enc = Some ce → σ !! mask = Some cm →
  indices_on σ (cell_device ce) indices idxs → Forall int64_ok idxs →
  cell_index_select ce 0
    (LongTensor (index_vector (cell_device ce) idxs)) = Ok ce' →
  cell_index_select cm 0
    (LongTensor (index_vector (cell_device ce) idxs)) = Ok cm' →
  ∃ e' m' σ',
    reorder_encoder_states self (enc, mask) indices σ
    = Ok ((e', m'), σ') ∧
    σ ⊆ σ' ∧ σ !! e' = None ∧ σ !! m' = None ∧
    σ' !! e' = Some ce' ∧ σ' !! m' = Some cm'.
Proof.
  intros Henc Hmask Hidx Hok Hse Hsm.
  destruct (reorder_encoder_states_eval self σ enc mask ce indices idxs)
    as (lix & σa & ix & -> & Hσa & Hlix & Hdata & Hdev & Hrank); try done.
  assert (∀ c : cell F,
    cell_index_select c 0 (LongTensor ix)
    = cell_index_select c 0
        (LongTensor (index_vector (cell_device ce) idxs))) as Hcanon.
  { intros c. apply cell_index_select_ext; try done; cbn; lia. }
  assert (σa !! enc = Some ce) as Henca by by eapply lookup_weaken.
  assert (σa !! mask = Some cm) as Hmaska by by eapply lookup_weaken.
  rewrite <- Hcanon in Hse, Hsm.
  destruct (torch_index_select_ok σa enc lix ce (LongTensor ix) ce'
              Henca Hlix Hse) as (o1 & σb & Hrun1 & Hσb & Hn1 & Ho1).
  assert (σb !! mask = Some cm) as Hmaskb by by eapply lookup_weaken.
  assert (σb !! lix = Some (LongTensor ix)) as Hlixb
    by by eapply lookup_weaken.
  destruct (torch_index_select_ok σb mask lix cm (LongTensor ix) cm'
              Hmaskb Hlixb Hsm) as (o2 & σc & Hrun2 & Hσc & Hn2 & Ho2).
  exists o1, o2, σc.
  rewrite (bind_run _ _ _ _ _ Hrun1), (bind_run _ _ _ _ _ Hrun2).
  split_and!; try done.
  - etrans; [exact Hσa|]. by etrans.
  - by eapply lookup_None_weaken.
  - eapply lookup_None_weaken; [|exact Hn2]. by etrans.
  - by eapply lookup_weaken.
Qed.


(** A failing selection is the failure of the method. *)
Lemma reorder_encoder_states_enc_raises
    self σ enc mask ce indices idxs e :
  σ !! enc = Some ce →
  indices_on σ (cell_device ce) indices idxs → Forall int64_ok idxs →
  cell_index_select ce 0
    (LongTensor (index_vector (cell_device ce) idxs)) = Raise e →
  reorder_encoder_states self (enc, mask) indices σ = Raise e.
Proof.
  intros Henc Hidx Hok Hse.
  destruct (reorder_encoder_states_eval self σ enc mask ce indices idxs)
    as (lix & σa & ix & -> & Hσa & Hlix & Hdata & Hdev & Hrank); try done.
  assert (σa !! enc = Some ce) as Henca by by eapply lookup_weaken.
  rewrite <- (cell_index_select_ext ce ix) in Hse;
    [|done|done|done|cbn; lia].
  unfold mbind at 1, M_bind at 1.
  by rewrite (torch_index_select_raises σa enc lix ce (LongTensor ix) e).
Qed.

Lemma reorder_encoder_states_mask_raises
    self σ enc mask ce cm indices idxs ce' e :
  σ !! enc = Some ce → σ !! mask = Some cm →
  indices_on σ (cell_device ce) indices idxs → Forall int64_ok idxs →
  cell_index_select ce 0
    (LongTensor (index_vector (cell_device ce) idxs)) = Ok ce' →
  cell_index_select cm 0
    (LongTensor (index_vector (cell_device ce) idxs)) = Raise e →
  reorder_encoder_states self (enc, mask) indices σ = Raise e.
Proof.
  intros Henc Hmask Hidx Hok Hse Hsm.
  destruct (reorder_encoder_states_eval self σ enc mask ce indices idxs)
    as (lix & σa & ix & -> & Hσa & Hlix & Hdata & Hdev & Hrank); try done.
  assert (σa !! enc = Some ce) as Henca by by eapply lookup_weaken.
  assert (σa !! mask = Some cm) as Hmaska by by eapply lookup_weaken.
  rewrite <- (cell_index_select_ext ce ix) in Hse;
    [|done|done|done|cbn; lia].
  rewrite <- (cell_index_select_ext cm ix) in Hsm;
    [|done|done|done|cbn; lia].
  destruct (torch_index_select_ok σa enc lix ce (LongTensor ix) ce'
              Henca Hlix Hse) as (o1 & σb & Hrun1 & Hσb & Hn1 & Ho1).
  assert (σb !! mask = Some cm) as Hmaskb by by eapply lookup_weaken.
  assert (σb !! lix = Some (LongTensor ix)) as Hlixb
    by by eapply lookup_weaken.
  rewrite (bind_run _ _ _ _ _ Hrun1).
  unfold mbind at 1, M_bind at 1.
  by rewrite (torch_index_select_raises σb mask lix cm (LongTensor ix) e).
Qed.

(** *** Selections on well-formed tensors *)

Lemma block_row_length {A} (t : tensor A) n rest (i : Z) :
  tensor_wf t → t_shape t = n :: rest → (0 ≤ i < Z.of_nat n)%Z →
  length (block (numel rest) (Z.to_nat i) (t_data t)) = numel rest.
Proof.
  intros [Hlen _] Hsh Hi. apply length_block. rewrite Hlen, Hsh.
  cbn [numel foldr]. apply Nat.mul_le_mono_r. lia.
Qed.

Lemma index_select_kernel_identity {A} (t : tensor A) n rest :
  tensor_wf t → t_shape t = n :: rest →
  index_select_kernel t 0 (index_vector (t_device t) (Z.of_nat <$> seq 0 n))
  = Ok t.
Proof.
  intros Hwf Hsh.
  rewrite (index_select_kernel_ok t _ n rest); [|done|done|cbn; lia|]; cbn.
  - rewrite length_fmap, length_seq, list_fmap_bind.
    rewrite (list_bind_ext _ (λ i, block (numel rest) i (t_data t))
               (seq 0 n) (seq 0 n)); [| |done].
    + rewrite bind_blocks_seq.
      * destruct t. cbn in *. by subst.
      * destruct Hwf as [-> _]. by rewrite Hsh.
    + intros i. cbn. by rewrite Nat2Z.id.
  - apply Forall_fmap, Forall_forall. intros i Hi%elem_of_seq. cbn. lia.
Qed.

Lemma compose_indices_range (idxs1 idxs2 : list Z) n :
  Forall (λ i, 0 ≤ i < Z.of_nat n)%Z idxs1 →
  Forall (λ j, 0 ≤ j < Z.of_nat (length idxs1))%Z idxs2 →
  Forall (λ i, 0 ≤ i < Z.of_nat n)%Z (compose_indices idxs1 idxs2).
Proof.
  intros H1 H2. unfold compose_indices. apply Forall_fmap.
  eapply Forall_impl; [exact H2|]. intros j Hj. cbn in Hj |- *.
  destruct (lookup_lt_is_Some_2 idxs1 (Z.to_nat j)) as [i Hi]; [lia|].
  rewrite Hi. cbn. rewrite Forall_forall in H1. apply H1.
  by eapply list_elem_of_lookup_2.
Qed.

Lemma index_select_kernel_compose {A} (t : tensor A) n rest d idxs1 idxs2 :
  tensor_wf t → t_shape t = n :: rest → t_device t = d →
  Forall (λ i, 0 ≤ i < Z.of_nat n)%Z idxs1 →
  Forall (λ j, 0 ≤ j < Z.of_nat (length idxs1))%Z idxs2 →
  ∃ t1 t2,
    index_select_kernel t 0 (index_vector d idxs1) = Ok t1 ∧
    t_device t1 = d ∧
    index_select_kernel t1 0 (index_vector d idxs2) = Ok t2 ∧
    index_select_kernel t 0 (index_vector d (compose_indices idxs1 idxs2))
    = Ok t2.
Proof.
  intros Hwf Hsh Hd H1 H2.
  pose proof (compose_indices_range idxs1 idxs2 n H1 H2) as H12.
  eexists _, _. split_and!.
  - by apply (index_select_kernel_ok t _ n rest); [| |cbn; lia|].
  - done.
  - by apply (index_select_kernel_ok _ _ (length idxs1) rest);
      [| |cbn; lia|].
  - rewrite (index_select_kernel_ok t _ n rest); [|done|done|cbn; lia|done].
    cbn. f_equal. f_equal.
    + unfold compose_indices. by rewrite length_fmap.
    + unfold compose_indices. rewrite list_fmap_bind.
      apply Forall_bind_ext. rewrite Forall_forall.
      intros j Hj. rewrite Forall_forall in H2. apply H2 in Hj.
      cbv beta in Hj. cbn.
      destruct (lookup_lt_is_Some_2 idxs1 (Z.to_nat j)) as [i Hi]; [lia|].
      rewrite Hi. cbn. symmetry.
      apply (block_bind_uniform
               (λ i, block (numel rest) (Z.to_nat i) (t_data t))
               idxs1 (numel rest) (Z.to_nat j) i); [|done].
      intros y Hy. rewrite Forall_forall in H1.
      by apply (block_row_length t n rest); [| |apply H1].
Qed.

Lemma index_select_kernel_wf {A} (t : tensor A) n rest d idxs :
  tensor_wf t → t_shape t = n :: rest → t_device t = d →
  Forall (λ i, 0 ≤ i < Z.of_nat n)%Z idxs →
  int64_ok (Z.of_nat (length idxs)) →
  ∃ t', index_select_kernel t 0 (index_vector d idxs) = Ok t' ∧
        tensor_wf t' ∧ t_shape t' = length idxs :: rest ∧ t_device t' = d.
Proof.
  intros Hwf Hsh Hd Hin Hlen. eexists. split_and!.
  - by apply (index_select_kernel_ok t _ n rest); [| |cbn; lia|].
  - split; cbn.
    + rewrite (length_bind_uniform _ _ (numel rest)); [done|].
      intros i Hi. rewrite Forall_forall in Hin.
      by apply (block_row_length t n rest); [| |apply Hin].
    + destruct Hwf as [_ Hb]. rewrite Hsh in Hb.
      apply Forall_cons_1 in Hb as [_ Hb]. by constructor.
  - done.
  - done.
Qed.

Lemma cell_index_select_identity (c : cell F) n rest :
  cell_wf c → cell_shape c = n :: rest →
  cell_index_select c 0
    (LongTensor (index_vector (cell_device c) (Z.of_nat <$> seq 0 n)))
  = Ok c.
Proof.
  intros Hwf Hsh. destruct c as [dt t|t|t]; cbn in *;
    by rewrite (index_select_kernel_identity t n rest).
Qed.

Lemma cell_index_select_compose (c : cell F) n rest d idxs1 idxs2 :
  cell_wf c → cell_shape c = n :: rest → cell_device c = d →
  Forall (λ i, 0 ≤ i < Z.of_nat n)%Z idxs1 →
  Forall (λ j, 0 ≤ j < Z.of_nat (length idxs1))%Z idxs2 →
  ∃ c1 c2,
    cell_index_select c 0 (LongTensor (index_vector d idxs1)) = Ok c1 ∧
    cell_device c1 = d ∧
    cell_index_select c1 0 (LongTensor (index_vector d idxs2)) = Ok c2 ∧
    cell_index_select c 0
      (LongTensor (index_vector d (compose_indices idxs1 idxs2)))
    = Ok c2.
Proof.
  intros Hwf Hsh Hd H1 H2. destruct c as [dt t|t|t]; cbn in *;
    destruct (index_select_kernel_compose t n rest d idxs1 idxs2
                Hwf Hsh Hd H1 H2) as (t1 & t2 & Hs1 & Hd1 & Hs2 & Hs12);
    [exists (FloatTensor dt t1), (FloatTensor dt t2)
    |exists (LongTensor t1), (LongTensor t2)
    |exists (BoolTensor t1), (BoolTensor t2)];
    cbn; by rewrite Hs1, Hs2, Hs12.
Qed.

Lemma cell_index_select_wf (c : cell F) n rest d idxs :
  cell_wf c → cell_shape c = n :: rest → cell_device c = d →
  Forall (λ i, 0 ≤ i < Z.of_nat n)%Z idxs →
  int64_ok (Z.of_nat (length idxs)) →
  ∃ c', cell_index_select c 0 (LongTensor (index_vector d idxs)) = Ok c' ∧
        cell_wf c' ∧ cell_shape c' = length idxs :: rest ∧
        cell_device c' = d ∧ cell_dtype c' = cell_dtype c.
Proof.
  intros Hwf Hsh Hd Hin Hlen. destruct c as [dt t|t|t]; cbn in *;
    destruct (index_select_kernel_wf t n rest d idxs Hwf Hsh Hd Hin Hlen)
      as (t' & Hs & Hwf' & Hsh' & Hd');
    [exists (FloatTensor dt t')|exists (LongTensor t')
    |exists (BoolTensor t')];
    cbn; by rewrite Hs.
Qed.

Lemma cell_index_select_in_range (c : cell F) n rest d idxs :
  cell_shape c = n :: rest → cell_device c = d →
  Forall (λ i, 0 ≤ i < Z.of_nat n)%Z idxs →
  ∃ c', cell_index_select c 0 (LongTensor (index_vector d idxs)) = Ok c'.
Proof.
  intros Hsh Hd Hin. destruct c as [dt t|t|t]; cbn in *;
    rewrite (index_select_kernel_ok t _ n rest);
    try done; try (cbn; lia); by eexists.
Qed.

Lemma cell_index_select_out_of_range (c : cell F) n rest d idxs :
  cell_shape c = n :: rest → numel (cell_shape c) ≠ 0 →
  cell_device c = d →
  ¬ Forall (λ i, 0 ≤ i < Z.of_nat n)%Z idxs →
  cell_index_select c 0 (LongTensor (index_vector d idxs))
  = Raise IndexError.
Proof.
  intros Hsh Hnum Hd Hin. destruct c as [dt t|t|t]; cbn in *;
    rewrite (index_select_kernel_out_of_range t _ n rest);
    try done; cbn; lia.
Qed.

(** A call that returned ran both selections. *)
Lemma reorder_encoder_states_inv
    self σ enc mask ce cm indices idxs e' m' σ' :
  σ !! enc = Some ce → σ !! mask = Some cm →
  indices_on σ (cell_device ce) indices idxs → Forall int64_ok idxs →
  reorder_encoder_states self (enc, mask) indices σ = Ok ((e', m'), σ') →
  ∃ ce' cm',
    cell_index_select ce 0
      (LongTensor (index_vector (cell_device ce) idxs)) = Ok ce' ∧
    cell_index_select cm 0
      (LongTensor (index_vector (cell_device ce) idxs)) = Ok cm' ∧
    σ' !! e' = Some ce' ∧ σ' !! m' = Some cm'.
Proof.
  intros Henc Hmask Hidx Hok Hrun.
  destruct (cell_index_select ce 0 _) as [ce'|e] eqn:Hse.
  - destruct (cell_index_select cm 0 _) as [cm'|e] eqn:Hsm.
    + destruct (reorder_encoder_states_run self σ enc mask ce cm indices
                  idxs ce' cm' Henc Hmask Hidx Hok Hse Hsm)
        as (e2 & m2 & σ2 & Hrun2 & _ & _ & _ & He2 & Hm2).
      rewrite Hrun in Hrun2. injection Hrun2 as <- <- <-.
      by exists ce', cm'.
    + by rewrite (reorder_encoder_states_mask_raises self σ enc mask ce cm
                    indices idxs ce' e) in Hrun.
  - by rewrite (reorder_encoder_states_enc_raises self σ enc mask ce
                  indices idxs e) in Hrun.
Qed.

Lemma rows_int64_ok (c : cell F) n rest idxs :
  cell_wf c → cell_shape c = n :: rest →
  Forall (λ i, 0 ≤ i < Z.of_nat n)%Z idxs → Forall int64_ok idxs.
Proof.
  intros Hwf Hsh Hin.
  assert (Forall (λ d, int64_ok (Z.of_nat d)) (cell_shape c)) as Hb
    by (destruct c; apply Hwf).
  rewrite Hsh in Hb. apply Forall_cons_1 in Hb as [Hn _].
  eapply Forall_impl; [exact Hin|]. unfold int64_ok in *.
  intros z Hz. cbn in Hz. lia.
Qed.

(** X1. Reordering by the positions 0, 1, ..., n-1 of tensors with n
    rows copies them: the results are new tensors that hold what [enc]
    and [mask] hold. *)
Theorem reorder_encoder_states_identity
    self σ enc mask ce cm n reste restm :
  σ !! enc = Some ce → σ !! mask = Some cm →
  cell_wf ce → cell_wf cm →
  cell_shape ce = n :: reste → cell_shape cm = n :: restm →
  cell_device cm = cell_device ce →
  ∃ enc' mask' σ',
    reorder_encoder_states self (enc, mask)
      (IndList (Z.of_nat <$> seq 0 n)) σ
    = Ok ((enc', mask'), σ') ∧
    σ' !! enc' = Some ce ∧ σ' !! mask' = Some cm ∧
    enc' ≠ enc ∧ mask' ≠ mask.
Proof.
  intros Henc Hmask Hwfe Hwfm Hshe Hshm Hdev.
  assert (Forall (λ i, 0 ≤ i < Z.of_nat n)%Z (Z.of_nat <$> seq 0 n)) as Hin.
  { apply Forall_fmap, Forall_forall. intros i Hi%elem_of_seq. cbn. lia. }
  destruct (reorder_encoder_states_run self σ enc mask ce cm
              (IndList (Z.of_nat <$> seq 0 n)) (Z.of_nat <$> seq 0 n) ce cm)
    as (e' & m' & σ' & Hrun & _ & Hne & Hnm & He & Hm); try done.
  - by eapply rows_int64_ok.
  - by eapply cell_index_select_identity.
  - rewrite <- Hdev. by eapply cell_index_select_identity.
  - exists e', m', σ'. split_and!; try done; intros ->; congruence.
Qed.

(** X2. Reordering by [idxs1] and reordering the results by [idxs2]
    gives tensors that hold what one reordering of the originals by the
    composed positions gives. *)
Theorem reorder_encoder_states_compose
    self σ enc mask ce cm ne nm reste restm idxs1 idxs2 :
  σ !! enc = Some ce → σ !! mask = Some cm →
  cell_wf ce → cell_wf cm →
  cell_shape ce = ne :: reste → cell_shape cm = nm :: restm →
  cell_device cm = cell_device ce →
  Forall (λ i, 0 ≤ i < Z.of_nat ne ∧ i < Z.of_nat nm)%Z idxs1 →
  Forall (λ j, 0 ≤ j < Z.of_nat (length idxs1))%Z idxs2 →
  int64_ok (Z.of_nat (length idxs1)) →
  ∃ e1 m1 σ1 e2 m2 σ2 e3 m3 σ3,
    reorder_encoder_states self (enc, mask) (IndList idxs1) σ
    = Ok ((e1, m1), σ1) ∧
    reorder_encoder_states self (e1, m1) (IndList idxs2) σ1
    = Ok ((e2, m2), σ2) ∧
    reorder_encoder_states self (enc, mask)
      (IndList (compose_indices idxs1 idxs2)) σ
    = Ok ((e3, m3), σ3) ∧
    σ2 !! e2 = σ3 !! e3 ∧ σ2 !! m2 = σ3 !! m3.
Proof.
  intros Henc Hmask Hwfe Hwfm Hshe Hshm Hdev Hin1 Hin2 Hlen.
  assert (Forall (λ i, 0 ≤ i < Z.of_nat ne)%Z idxs1) as Hine
    by (eapply Forall_impl; [exact Hin1|]; cbn; lia).
  assert (Forall (λ i, 0 ≤ i < Z.of_nat nm)%Z idxs1) as Hinm
    by (eapply Forall_impl; [exact Hin1|]; cbn; lia).
  destruct (cell_index_select_compose ce ne reste (cell_device ce)
              idxs1 idxs2) as (ce1 & ce2 & Hse1 & Hde1 & Hse2 & Hse12);
    try done.
  destruct (cell_index_select_compose cm nm restm (cell_device ce)
              idxs1 idxs2) as (cm1 & cm2 & Hsm1 & Hdm1 & Hsm2 & Hsm12);
    try done.
  destruct (reorder_encoder_states_run self σ enc mask ce cm
              (IndList idxs1) idxs1 ce1 cm1)
    as (e1 & m1 & σ1 & Hrun1 & _ & _ & _ & He1 & Hm1); try done.
  { by eapply rows_int64_ok. }
  destruct (reorder_encoder_states_run self σ1 e1 m1 ce1 cm1
              (IndList idxs2) idxs2 ce2 cm2)
    as (e2 & m2 & σ2 & Hrun2 & _ & _ & _ & He2 & Hm2); try done.
  { eapply Forall_impl; [exact Hin2|]. unfold int64_ok in *.
    intros z Hz. cbn in Hz. lia. }
  { by rewrite Hde1. }
  { by rewrite Hde1. }
  destruct (reorder_encoder_states_run self σ enc mask ce cm
              (IndList (compose_indices idxs1 idxs2))
              (compose_indices idxs1 idxs2) ce2 cm2)
    as (e3 & m3 & σ3 & Hrun3 & _ & _ & _ & He3 & Hm3); try done.
  { eapply rows_int64_ok; [exact Hwfe|exact Hshe|].
    by apply compose_indices_range. }
  exists e1, m1, σ1, e2, m2, σ2, e3, m3, σ3.
  split_and!; try done; congruence.
Qed.

(** X3. On the CPU, for tensors [enc] and [mask] that hold elements,
    when some index addresses no row of [enc] or no row of [mask]
    (negative indices included: they do not count from the end), the
    method raises [IndexError]. *)
Theorem reorder_encoder_states_index_out_of_range
    self σ enc mask ce cm indices idxs ne nm reste restm :
  σ !! enc = Some ce → σ !! mask = Some cm →
  cell_shape ce = ne :: reste → cell_shape cm = nm :: restm →
  numel (cell_shape ce) ≠ 0 → numel (cell_shape cm) ≠ 0 →
  cell_device ce = cpu → cell_device cm = cpu →
  indices_on σ (cell_device ce) indices idxs → Forall int64_ok idxs →
  ¬ Forall (λ i, 0 ≤ i < Z.of_nat ne ∧ i < Z.of_nat nm)%Z idxs →
  reorder_encoder_states self (enc, mask) indices σ = Raise IndexError.
Proof.
  intros Henc Hmask Hshe Hshm Hnume Hnumm Hcpu Hcpum Hidx Hok Hout.
  assert (cell_device cm = cell_device ce) as Hdev by congruence.
  clear Hcpu Hcpum.
  destruct (decide (Forall (λ i, 0 ≤ i < Z.of_nat ne)%Z idxs)) as [Hine|Hine].
  - destruct (cell_index_select_in_range ce ne reste (cell_device ce) idxs)
      as [ce' Hse]; try done.
    apply (reorder_encoder_states_mask_raises self σ enc mask ce cm
             indices idxs ce'); try done.
    apply (cell_index_select_out_of_range cm nm restm); try done.
    intros Hinm. apply Hout. rewrite Forall_forall in Hine, Hinm.
    apply Forall_forall. intros i Hi.
    specialize (Hine i Hi). specialize (Hinm i Hi). cbn in *. lia.
  - apply (reorder_encoder_states_enc_raises self σ enc mask ce
             indices idxs); try done.
    by apply (cell_index_select_out_of_range ce ne reste).
Qed.

(** X4. An index vector on the device of [enc] and the plain list of
    its elements are interchangeable: the two calls raise the same
    exception or return tensors that hold the same. *)
Theorem reorder_encoder_states_list_or_tensor
    self σ enc mask ce cm l ix :
  σ !! enc = Some ce → σ !! mask = Some cm →
  σ !! l = Some (LongTensor ix) →
  t_device ix = cell_device ce → length (t_shape ix) ≤ 1 →
  Forall int64_ok (t_data ix) →
  match reorder_encoder_states self (enc, mask) (IndTensor l) σ,
        reorder_encoder_states self (enc, mask) (IndList (t_data ix)) σ
  with
  | Ok ((e1, m1), σ1), Ok ((e2, m2), σ2) =>
      σ1 !! e1 = σ2 !! e2 ∧ σ1 !! m1 = σ2 !! m2
  | Raise x, Raise y => x = y
  | _, _ => False
  end.
Proof.
  intros Henc Hmask Hl Hdev Hrank Hok.
  assert (indices_on σ (cell_device ce) (IndTensor l) (t_data ix)) as Hit
    by by exists ix.
  assert (indices_on σ (cell_device ce) (IndList (t_data ix)) (t_data ix))
    as Hil by done.
  destruct (cell_index_select ce 0
              (LongTensor (index_vector (cell_device ce) (t_data ix))))
    as [ce'|e] eqn:Hse.
  - destruct (cell_index_select cm 0
                (LongTensor (index_vector (cell_device ce) (t_data ix))))
      as [cm'|e] eqn:Hsm.
    + destruct (reorder_encoder_states_run self σ enc mask ce cm _ _ ce' cm'
                  Henc Hmask Hit Hok Hse Hsm)
        as (e1 & m1 & σ1 & -> & _ & _ & _ & He1 & Hm1).
      destruct (reorder_encoder_states_run self σ enc mask ce cm _ _ ce' cm'
                  Henc Hmask Hil Hok Hse Hsm)
        as (e2 & m2 & σ2 & -> & _ & _ & _ & He2 & Hm2).
      split; congruence.
    + rewrite (reorder_encoder_states_mask_raises self σ enc mask ce cm
                 _ _ ce' e Henc Hmask Hit Hok Hse Hsm).
      by rewrite (reorder_encoder_states_mask_raises self σ enc mask ce cm
                    _ _ ce' e Henc Hmask Hil Hok Hse Hsm).
  - rewrite (reorder_encoder_states_enc_raises self σ enc mask ce
               _ _ e Henc Hit Hok Hse).
    by rewrite (reorder_encoder_states_enc_raises self σ enc mask ce
                  _ _ e Henc Hil Hok Hse).
Qed.

(** X5. The results of a reordering are again encoder states: tensors
    that hold as many elements as their shapes say, on the device and of
    the dtypes of [enc] and [mask], with one row per index. *)
Theorem reorder_encoder_states_well_formed
    self σ enc mask ce cm indices idxs ne nm reste restm :
  σ !! enc = Some ce → σ !! mask = Some cm →
  cell_wf ce → cell_wf cm →
  cell_shape ce = ne :: reste → cell_shape cm = nm :: restm →
  cell_device cm = cell_device ce →
  indices_on σ (cell_device ce) indices idxs →
  Forall (λ i, 0 ≤ i < Z.of_nat ne ∧ i < Z.of_nat nm)%Z idxs →
  int64_ok (Z.of_nat (length idxs)) →
  ∃ enc' mask' σ' ce' cm',
    reorder_encoder_states self (enc, mask) indices σ
    = Ok ((enc', mask'), σ') ∧
    σ' !! enc' = Some ce' ∧ σ' !! mask' = Some cm' ∧
    cell_wf ce' ∧ cell_wf cm' ∧
    cell_shape ce' = length idxs :: reste ∧
    cell_shape cm' = length idxs :: restm ∧
    cell_device ce' = cell_device ce ∧ cell_device cm' = cell_device cm ∧
    cell_dtype ce' = cell_dtype ce ∧ cell_dtype cm' = cell_dtype cm.
Proof.
  intros Henc Hmask Hwfe Hwfm Hshe Hshm Hdev Hidx Hin Hlen.
  assert (Forall (λ i, 0 ≤ i < Z.of_nat ne)%Z idxs) as Hine
    by (eapply Forall_impl; [exact Hin|]; cbn; lia).
  assert (Forall (λ i, 0 ≤ i < Z.of_nat nm)%Z idxs) as Hinm
    by (eapply Forall_impl; [exact Hin|]; cbn; lia).
  destruct (cell_index_select_wf ce ne reste (cell_device ce) idxs)
    as (ce' & Hse & Hwfe' & Hshe' & Hde' & Hte'); try done.
  destruct (cell_index_select_wf cm nm restm (cell_device ce) idxs)
    as (cm' & Hsm & Hwfm' & Hshm' & Hdm' & Htm'); try done.
  destruct (reorder_encoder_states_run self σ enc mask ce cm indices idxs
              ce' cm') as (e' & m' & σ' & Hrun & _ & _ & _ & He & Hm);
    try done.
  { by apply (rows_int64_ok ce ne reste). }
  exists e', m', σ', ce', cm'. split_and!; try done. congruence.
Qed.

(** *** The output projection *)

Lemma output_mask_raises self x σ dt t W r e :
  σ !! x = Some (FloatTensor dt t) →
  σ !! weight (embeddings self) = Some (FloatTensor dt W) →
  linear_kernel t W = Ok r →
  setitem_dim2_kernel r (start_idx self) (neginf (floating dt)) = Raise e →
  output self x σ = Raise e.
Proof.
  intros Hx Hw Hr Hset. unfold output.
  rewrite (bind_run _ _ _ _ _ (F_linear_run _ _ _ _ _ _ _ Hx Hw Hr)).
  unfold tensor_dtype at 1.
  erewrite bind_run; [|erewrite bind_run; [done|]; unfold deref;
    by rewrite lookup_insert_eq].
  unfold tensor_setitem_dim2. unfold_M. rewrite lookup_insert_eq. cbn.
  by rewrite Hset.
Qed.

Lemma output_linear_raises self x σ dt t W e :
  σ !! x = Some (FloatTensor dt t) →
  σ !! weight (embeddings self) = Some (FloatTensor dt W) →
  linear_kernel t W = Raise e →
  output self x σ = Raise e.
Proof.
  intros Hx Hw Hr. unfold output, F_linear. unfold_M.
  by rewrite Hx, Hw, decide_True, Hr.
Qed.

(** X6. For an activation of shape (batch, time, hidden), the mask
    overwrites the start token's logit and nothing else: at every batch
    and time position the start token's logit is [neginf] of the dtype
    and every other logit is the one that the projection
    [F.linear(tensor, self.embeddings.weight)] has there. *)
Theorem output_logits self x σ dt t W B T D V k :
  σ !! x = Some (FloatTensor dt t) →
  σ !! weight (embeddings self) = Some (FloatTensor dt W) →
  t_device t = t_device W →
  t_shape t = [B; T; D] → t_shape W = [V; D] →
  norm_index V (start_idx self) = Some k →
  ∃ o σ' r out,
    output self x σ = Ok (o, σ') ∧
    linear_kernel t W = Ok r ∧
    σ' !! o = Some (FloatTensor dt out) ∧
    ∀ b s v, b < B → s < T → v < V →
      is_Some (entry3 r b s v) ∧
      entry3 out b s v
      = if decide (v = k) then Some (neginf (floating dt))
        else entry3 r b s v.
Proof.
  intros Hx Hw Hdev Ht HW Hk.
  pose proof (linear_kernel_rank3 t W B T D V Hdev Ht HW) as Hlin.
  set (r := Tensor (t_device t) [B; T; V] _) in Hlin.
  pose proof (setitem_dim2_rank3 r B T V (start_idx self) k
                (neginf (floating dt)) eq_refl Hk) as Hset.
  eexists _, _, r, _. split; [by eapply output_run|].
  split; [done|]. split; [apply lookup_insert_eq|].
  intros b s v Hb Hs Hv. subst r.
  unfold entry3. cbn [t_shape t_data]. rewrite !decide_True by done.
  rewrite list_lookup_imap.
  rewrite lookup_projection by (try done; nia).
  split; [by eexists|]. cbn. rewrite flat_index_mod by done.
  by case_decide.
Qed.

(** X7. The logits of a well-formed activation and weight are a
    well-formed tensor of shape (batch, time, vocabulary) on the device
    of the activation. *)
Theorem output_well_formed self x σ dt t W B T D V k :
  σ !! x = Some (FloatTensor dt t) →
  σ !! weight (embeddings self) = Some (FloatTensor dt W) →
  t_device t = t_device W →
  t_shape t = [B; T; D] → t_shape W = [V; D] →
  norm_index V (start_idx self) = Some k →
  tensor_wf t → tensor_wf W →
  ∃ o σ' out,
    output self x σ = Ok (o, σ') ∧
    σ' !! o = Some (FloatTensor dt out) ∧
    tensor_wf out ∧ t_shape out = [B; T; V] ∧ t_device out = t_device t.
Proof.
  intros Hx Hw Hdev Ht HW Hk [_ Hbt] [_ HbW].
  pose proof (linear_kernel_rank3 t W B T D V Hdev Ht HW) as Hlin.
  set (r := Tensor (t_device t) [B; T; V] _) in Hlin.
  pose proof (setitem_dim2_rank3 r B T V (start_idx self) k
                (neginf (floating dt)) eq_refl Hk) as Hset.
  eexists _, _, _. split; [by eapply output_run|].
  split; [apply lookup_insert_eq|]. split_and!; try done.
  split; cbn [t_shape t_data].
  - subst r. cbn [t_data]. rewrite length_imap, length_projection.
    cbn. lia.
  - rewrite Ht in Hbt. rewrite HW in HbW.
    apply Forall_cons_1 in Hbt as [HB Hbt].
    apply Forall_cons_1 in Hbt as [HT _].
    apply Forall_cons_1 in HbW as [HV _].
    repeat (apply Forall_cons_2; [done|]). apply Forall_nil_2.
Qed.

(** X8. An activation with one or two dimensions is projected, and the
    masking assignment, which indexes three dimensions, raises
    [IndexError]. *)
Theorem output_low_rank_raises self x σ dt t W D V :
  σ !! x = Some (FloatTensor dt t) →
  σ !! weight (embeddings self) = Some (FloatTensor dt W) →
  t_device t = t_device W →
  length (t_shape t) ≤ 2 → last (t_shape t) = Some D →
  t_shape W = [V; D] →
  output self x σ = Raise IndexError.
Proof.
  intros Hx Hw Hdev Hrank Hlast HW.
  destruct (t_shape t) as [|a [|b [|c rest]]] eqn:Ht; cbn in Hrank, Hlast;
    [done| | |lia]; injection Hlast as ->.
  - eapply output_mask_raises; [done|done| |].
    + unfold linear_kernel. rewrite decide_True, Ht, HW by done. cbn.
      by rewrite decide_True.
    + done.
  - eapply output_mask_raises; [done|done| |].
    + unfold linear_kernel. rewrite decide_True, Ht, HW by done. cbn.
      by rewrite decide_True.
    + done.
Qed.

(** X9. A start index that is no position of the vocabulary, counted
    from either end, makes the masking assignment raise [IndexError]. *)
Theorem output_start_idx_out_of_range self x σ dt t W B T D V :
  σ !! x = Some (FloatTensor dt t) →
  σ !! weight (embeddings self) = Some (FloatTensor dt W) →
  t_device t = t_device W →
  t_shape t = [B; T; D] → t_shape W = [V; D] →
  (start_idx self < - Z.of_nat V ∨ Z.of_nat V ≤ start_idx self)%Z →
  output self x σ = Raise IndexError.
Proof.
  intros Hx Hw Hdev Ht HW Hk.
  eapply output_mask_raises; [done|done| |].
  - by apply (linear_kernel_rank3 t W B T D V).
  - unfold setitem_dim2_kernel, norm_index. cbn.
    by rewrite !decide_False by lia.
Qed.

(** X10. The projection raises [RuntimeError] when the activation and the
    weight have different floating dtypes, when the hidden size of the
    activation is not that of the weight, and when the activation is an
    integer or boolean tensor. *)
Theorem output_mismatch_raises self x σ :
  (∀ dx dw t W,
     σ !! x = Some (FloatTensor dx t) →
     σ !! weight (embeddings self) = Some (FloatTensor dw W) →
     dx ≠ dw →
     output self x σ = Raise RuntimeError) ∧
  (∀ dt t W V D,
     σ !! x = Some (FloatTensor dt t) →
     σ !! weight (embeddings self) = Some (FloatTensor dt W) →
     t_shape W = [V; D] → last (t_shape t) ≠ Some D →
     output self x σ = Raise RuntimeError) ∧
  (∀ c dw W,
     σ !! x = Some c →
     σ !! weight (embeddings self) = Some (FloatTensor dw W) →
     cell_dtype c = int64 ∨ cell_dtype c = bool_ →
     output self x σ = Raise RuntimeError).
Proof.
  split_and!.
  - intros dx dw t W Hx Hw Hne. unfold output, F_linear. unfold_M.
    by rewrite Hx, Hw, decide_False.
  - intros dt t W V D Hx Hw HW Hlast.
    eapply output_linear_raises; [done|done|].
    unfold linear_kernel. case_decide; [|done]. rewrite HW.
    destruct (last (t_shape t)) as [d|]; [|done].
    rewrite decide_False; [done|congruence].
  - intros c dw W Hx Hw Hc. unfold output, F_linear. unfold_M.
    rewrite Hx, Hw. by destruct c, Hc.
Qed.

Lemma linear_kernel_rank4 (t W : tensor F) A B C D V :
  t_device t = t_device W → t_shape t = [A; B; C; D] → t_shape W = [V; D] →
  linear_kernel t W
  = Ok (Tensor (t_device t) [A; B; C; V]
          (n ← seq 0 (A * B * C);
           j ← seq 0 V;
           [dot (block D n (t_data t)) (block D j (t_data W))])).
Proof.
  intros Hd Ht HW. unfold linear_kernel.
  rewrite decide_True, Ht, HW by done. cbn [length last take Nat.sub app].
  rewrite decide_True by done. cbn [numel foldr].
  by replace (A * (B * (C * 1))) with (A * B * C) by lia.
Qed.

Lemma flat_index4_div B C V a b c v :
  v < V → ((((a * B + b) * C + c) * V + v) / (V * 1)) mod C = c mod C.
Proof.
  intros Hv. rewrite Nat.mul_1_r, Nat.div_add_l, Nat.div_small by lia.
  by rewrite Nat.add_0_r, Nat.add_comm, Nat.Div0.mod_add.
Qed.

(** X11. For an activation with four dimensions the mask is written at
    position [start_idx] of the third dimension, not of the vocabulary:
    there every logit is [neginf], and elsewhere every logit, the start
    token's too, is the one that the projection has there. *)
Theorem output_rank4_masks_third_dimension
    self x σ dt t W A B C D V k :
  σ !! x = Some (FloatTensor dt t) →
  σ !! weight (embeddings self) = Some (FloatTensor dt W) →
  t_device t = t_device W →
  t_shape t = [A; B; C; D] → t_shape W = [V; D] →
  norm_index C (start_idx self) = Some k →
  ∃ o σ' r out,
    output self x σ = Ok (o, σ') ∧
    linear_kernel t W = Ok r ∧
    σ' !! o = Some (FloatTensor dt out) ∧
    ∀ a b c v, a < A → b < B → c < C → v < V →
      is_Some (entry4 r a b c v) ∧
      entry4 out a b c v
      = if decide (c = k) then Some (neginf (floating dt))
        else entry4 r a b c v.
Proof.
  intros Hx Hw Hdev Ht HW Hk.
  pose proof (linear_kernel_rank4 t W A B C D V Hdev Ht HW) as Hlin.
  set (r := Tensor (t_device t) [A; B; C; V] _) in Hlin.
  assert (setitem_dim2_kernel r (start_idx self) (neginf (floating dt))
          = Ok (Tensor (t_device t) [A; B; C; V]
                  (imap (λ i y, if decide ((i / (V * 1)) mod C = k)
                                then neginf (floating dt) else y)
                        (t_data r)))) as Hset.
  { unfold setitem_dim2_kernel. cbn [t_shape r]. by rewrite Hk. }
  eexists _, _, r, _. split; [by eapply output_run|].
  split; [done|]. split; [apply lookup_insert_eq|].
  intros a b c v Ha Hb Hc Hv. subst r.
  unfold entry4. cbn [t_shape t_data]. rewrite !decide_True by done.
  rewrite list_lookup_imap.
  rewrite lookup_projection; [|by apply flat_index_lt|done].
  split; [by eexists|]. cbn. rewrite flat_index4_div, Nat.mod_small by done.
  by case_decide.
Qed.

(** X12. A second call on the same argument returns another new tensor
    that holds what the first result holds, and leaves the first result
    as it is. *)
Theorem output_twice self x σ o1 σ1 :
  output self x σ = Ok (o1, σ1) →
  ∃ o2 σ2,
    output self x σ1 = Ok (o2, σ2) ∧
    o2 ≠ o1 ∧ σ2 !! o1 = σ1 !! o1 ∧ σ2 !! o2 = σ1 !! o1.
Proof.
  intros H.
  apply output_inv in H
    as (dt & t & W & r & out & Hx & Hw & Hr & Hout & Ho & ->).
  assert (x ≠ o1) as Hxo by (intros ->; congruence).
  assert (weight (embeddings self) ≠ o1) as Hwo
    by (intros Heq; rewrite Heq in Hw; congruence).
  set (σ1 := <[o1 := FloatTensor dt out]> σ).
  assert (σ1 !! fresh (dom σ1) = None) as Hnew
    by apply not_elem_of_dom_1, is_fresh.
  assert (fresh (dom σ1) ≠ o1) as Hne.
  { intros Heq. rewrite Heq in Hnew. subst σ1.
    by rewrite lookup_insert_eq in Hnew. }
  subst σ1. eexists _, _. split.
  - eapply output_run; [| |exact Hr|exact Hout];
      by rewrite lookup_insert_ne.
  - split_and!; [done| |].
    + by rewrite lookup_insert_ne.
    + by rewrite !lookup_insert_eq.
Qed.

(** *** The decoder state *)

Lemma reorder_layers_agree (ls : list (Layer LayerState)) :
  ∀ idx (st1 st2 : gmap Z LayerState) inds acc,
  (∀ i, i < length ls →
     st1 !! Z.of_nat (idx + i) = st2 !! Z.of_nat (idx + i)) →
  reorder_layers idx ls st1 inds acc = reorder_layers idx ls st2 inds acc.
Proof.
  induction ls as [|layer ls IH]; intros idx st1 st2 inds acc H; [done|].
  cbn [reorder_layers]. unfold dict_lookup.
  assert (st1 !! Z.of_nat idx = st2 !! Z.of_nat idx) as H0.
  { rewrite <- (Nat.add_0_r idx). apply H. cbn. lia. }
  rewrite <- H0.
  destruct (st1 !! Z.of_nat idx) as [s|]; [|done]. cbn.
  destruct (reorder_incremental_state layer s inds) as [v|]; [|done]. cbn.
  apply IH. intros i Hi.
  replace (S idx + i) with (idx + S i) by lia. apply H. cbn. lia.
Qed.

Lemma reorder_layers_failure (ls : list (Layer LayerState)) :
  ∀ idx (st : gmap Z LayerState) inds acc m layer s e,
  ls !! m = Some layer → st !! Z.of_nat (idx + m) = Some s →
  reorder_incremental_state layer s inds = Raise e →
  (∀ i layer' , i < m → ls !! i = Some layer' →
     ∃ s' v, st !! Z.of_nat (idx + i) = Some s' ∧
             reorder_incremental_state layer' s' inds = Ok v) →
  reorder_layers idx ls st inds acc = Raise e.
Proof.
  induction ls as [|l0 ls IH];
    intros idx st inds acc m layer s e Hm Hs He Hbefore; [done|].
  cbn [reorder_layers]. unfold dict_lookup. destruct m as [|m].
  - injection Hm as ->. rewrite Nat.add_0_r in Hs. rewrite Hs. cbn.
    by rewrite He.
  - destruct (Hbefore 0 l0) as (s0 & v0 & Hs0 & Hv0); [lia|done|].
    rewrite Nat.add_0_r in Hs0. rewrite Hs0. cbn. rewrite Hv0. cbn.
    apply (IH _ _ _ _ m layer s e); [done| |done|].
    + by replace (S idx + m) with (idx + S m) by lia.
    + intros i layer' Hi Hl.
      replace (S idx + i) with (idx + S i) by lia.
      apply Hbefore; [lia|done].
Qed.

(** X13. The method reads the incremental state only at the layer
    indices: two states that agree there give the same result, be it a
    dict or an exception. *)
Theorem reorder_decoder_incremental_state_reads_layer_keys
    self (st1 st2 : gmap Z LayerState) inds :
  (∀ idx, idx < length (layers (decoder self)) →
     st1 !! Z.of_nat idx = st2 !! Z.of_nat idx) →
  reorder_decoder_incremental_state self st1 inds
  = reorder_decoder_incremental_state self st2 inds.
Proof.
  intros H. unfold reorder_decoder_incremental_state.
  by apply reorder_layers_agree.
Qed.

(** X14. When the layers before layer [m] find their entries and return
    and layer [m]'s own reordering of its entry raises, the method raises
    that exception, whatever the later layers and entries are. *)
Theorem reorder_decoder_incremental_state_layer_failure
    self (incremental_state : gmap Z LayerState) inds m layer s e :
  layers (decoder self) !! m = Some layer →
  incremental_state !! Z.of_nat m = Some s →
  reorder_incremental_state layer s inds = Raise e →
  (∀ i layer', i < m → layers (decoder self) !! i = Some layer' →
     ∃ s' v, incremental_state !! Z.of_nat i = Some s' ∧
             reorder_incremental_state layer' s' inds = Ok v) →
  reorder_decoder_incremental_state self incremental_state inds = Raise e.
Proof.
  intros Hm Hs He Hbefore. unfold reorder_decoder_incremental_state.
  by apply (reorder_layers_failure _ 0 _ _ _ m layer s e).
Qed.

(** *** Construction *)

(** X15. When the options have no ['embedding_size'], construction
    raises [KeyError] once the base class constructor has returned;
    neither the embeddings nor a component is built. *)
Theorem init_missing_embedding_size opt0 dictionary man σ b σ1 :
  opt0 !! "embedding_size" = None →
  TorchGeneratorModel_init
    (dict_getitem dictionary (null_token dictionary))
    (dict_getitem dictionary (start_token dictionary))
    (dict_getitem dictionary (end_token dictionary)) σ
  = Ok (b, σ1) →
  __init__ opt0 dictionary man σ = Raise KeyError.
Proof.
  intros Hopt Hbase. unfold __init__.
  rewrite (bind_run _ _ _ _ _ Hbase). unfold lift. unfold_M.
  by rewrite Hopt.
Qed.

End MoreGeneratorProperties.

(** ** The further properties at the small instance *)

Lemma output_logits_witness :
  ∃ o σ' r out,
    output ex_model 1 ex_store = Ok (o, σ') ∧
    linear_kernel ex_input ex_weight = Ok r ∧
    σ' !! o = Some (FloatTensor float32 out) ∧
    ∀ b s v, b < 1 → s < 2 → v < 3 →
      is_Some (entry3 r b s v) ∧
      entry3 out b s v
      = if decide (v = 1) then Some (neginf (floating float32))
        else entry3 r b s v.
Proof.
  apply (output_logits ex_model 1 ex_store float32 ex_input ex_weight
           1 2 2 3 1); reflexivity.
Defined.

Lemma output_well_formed_witness :
  ∃ o σ' out,
    output ex_model 1 ex_store = Ok (o, σ') ∧
    σ' !! o = Some (FloatTensor float32 out) ∧
    tensor_wf out ∧ t_shape out = [1; 2; 3] ∧ t_device out = cpu.
Proof.
  apply (output_well_formed ex_model 1 ex_store float32 ex_input ex_weight
           1 2 2 3 1); try reflexivity.
  - split; [reflexivity|]. repeat constructor; unfold int64_ok; simpl; lia.
  - split; [reflexivity|]. repeat constructor; unfold int64_ok; simpl; lia.
Defined.

Lemma output_low_rank_raises_witness :
  output ex_model 2 ex_store4 = Raise IndexError.
Proof.
  apply (output_low_rank_raises ex_model 2 ex_store4 float32 ex_input2
           ex_weight 2 3); try reflexivity; simpl; lia.
Defined.

Lemma output_start_idx_out_of_range_witness :
  output ex_model_start3 1 ex_store = Raise IndexError.
Proof.
  apply (output_start_idx_out_of_range ex_model_start3 1 ex_store float32
           ex_input ex_weight 1 2 2 3); try reflexivity.
  right. simpl. lia.
Defined.

Lemma output_mismatch_raises_witness :
  output ex_model 1 (<[1 := FloatTensor float16 ex_input]> ex_store0)
  = Raise RuntimeError ∧
  output ex_model 1
    (<[1 := FloatTensor float32 (Tensor cpu [1; 1; 3] [1; 2; 3]%Z)]>
       ex_store0)
  = Raise RuntimeError ∧
  output ex_model 4 ex_store = Raise RuntimeError.
Proof.
  split_and!.
  - destruct (output_mismatch_raises ex_model 1
                (<[1 := FloatTensor float16 ex_input]> ex_store0))
      as (Hdtype & _ & _).
    apply (Hdtype float16 float32 ex_input ex_weight);
      [reflexivity|reflexivity|discriminate].
  - destruct (output_mismatch_raises ex_model 1
                (<[1 := FloatTensor float32
                          (Tensor cpu [1; 1; 3] [1; 2; 3]%Z)]> ex_store0))
      as (_ & Hsize & _).
    apply (Hsize float32 (Tensor cpu [1; 1; 3] [1; 2; 3]%Z) ex_weight 3 2);
      [reflexivity|reflexivity|reflexivity|discriminate].
  - destruct (output_mismatch_raises ex_model 4 ex_store)
      as (_ & _ & Hkind).
    apply (Hkind (LongTensor ex_index) float32 ex_weight);
      [reflexivity|reflexivity|].
    left. reflexivity.
Defined.

Lemma output_rank4_masks_third_dimension_witness :
  ∃ o σ' r out,
    output ex_model 1 ex_store4 = Ok (o, σ') ∧
    linear_kernel ex_input4 ex_weight = Ok r ∧
    σ' !! o = Some (FloatTensor float32 out) ∧
    ∀ a b c v, a < 1 → b < 1 → c < 2 → v < 3 →
      is_Some (entry4 r a b c v) ∧
      entry4 out a b c v
      = if decide (c = 1) then Some (neginf (floating float32))
        else entry4 r a b c v.
Proof.
  apply (output_rank4_masks_third_dimension ex_model 1 ex_store4 float32
           ex_input4 ex_weight 1 1 2 2 3 1); reflexivity.
Defined.

Lemma output_twice_witness :
  ∃ o1 σ1 o2 σ2,
    output ex_model 1 ex_store = Ok (o1, σ1) ∧
    output ex_model 1 σ1 = Ok (o2, σ2) ∧
    o2 ≠ o1 ∧ σ2 !! o1 = σ1 !! o1 ∧ σ2 !! o2 = σ1 !! o1.
Proof.
  assert (output ex_model 1 ex_store
          = Ok (5, <[5 := FloatTensor float32
                            (Tensor cpu [1; 2; 3]
                               [5; - 10 ^ 20; 11; 7; - 10 ^ 20; 15]%Z)]>
                     ex_store)) as Hfirst by (vm_compute; reflexivity).
  destruct (output_twice ex_model 1 ex_store _ _ Hfirst)
    as (o2 & σ2 & Hsecond & Hrest).
  eexists _, _, o2, σ2. split; [exact Hfirst|].
  split; [exact Hsecond|exact Hrest].
Defined.

Lemma ex_enc_wf : tensor_wf ex_enc.
Proof.
  split; [reflexivity|]. repeat constructor; unfold int64_ok; simpl; lia.
Defined.

Lemma ex_mask_wf : tensor_wf ex_mask.
Proof.
  split; [reflexivity|]. repeat constructor; unfold int64_ok; simpl; lia.
Defined.

Lemma reorder_encoder_states_identity_witness :
  ∃ enc' mask' σ',
    reorder_encoder_states ex_model (2, 3) (IndList [0; 1; 2]%Z) ex_store
    = Ok ((enc', mask'), σ') ∧
    σ' !! enc' = Some (FloatTensor float32 ex_enc) ∧
    σ' !! mask' = Some (BoolTensor ex_mask) ∧
    enc' ≠ 2 ∧ mask' ≠ 3.
Proof.
  apply (reorder_encoder_states_identity ex_model ex_store 2 3
           (FloatTensor float32 ex_enc) (BoolTensor ex_mask) 3 [1; 2] [1]);
    try reflexivity.
  - exact ex_enc_wf.
  - exact ex_mask_wf.
Defined.

Lemma reorder_encoder_states_compose_witness :
  ∃ e1 m1 σ1 e2 m2 σ2 e3 m3 σ3,
    reorder_encoder_states ex_model (2, 3) (IndList [2; 0]%Z) ex_store
    = Ok ((e1, m1), σ1) ∧
    reorder_encoder_states ex_model (e1, m1) (IndList [1; 1; 0]%Z) σ1
    = Ok ((e2, m2), σ2) ∧
    reorder_encoder_states ex_model (2, 3) (IndList [0; 0; 2]%Z) ex_store
    = Ok ((e3, m3), σ3) ∧
    σ2 !! e2 = σ3 !! e3 ∧ σ2 !! m2 = σ3 !! m3.
Proof.
  apply (reorder_encoder_states_compose ex_model ex_store 2 3
           (FloatTensor float32 ex_enc) (BoolTensor ex_mask) 3 3 [1; 2] [1]
           [2; 0]%Z [1; 1; 0]%Z); try reflexivity.
  - exact ex_enc_wf.
  - exact ex_mask_wf.
  - repeat constructor; simpl; lia.
  - repeat constructor; simpl; lia.
  - unfold int64_ok. simpl. lia.
Defined.

Lemma reorder_encoder_states_index_out_of_range_witness :
  reorder_encoder_states ex_model (2, 3) (IndList [0; -1]%Z) ex_store
  = Raise IndexError.
Proof.
  apply (reorder_encoder_states_index_out_of_range ex_model ex_store 2 3
           (FloatTensor float32 ex_enc) (BoolTensor ex_mask)
           (IndList [0; -1]%Z) [0; -1]%Z 3 3 [1; 2] [1]); try reflexivity.
  - discriminate.
  - discriminate.
  - repeat constructor; unfold int64_ok; simpl; lia.
  - intros H. apply Forall_cons_1 in H as [_ H].
    apply Forall_cons_1 in H as [H _]. simpl in H. lia.
Defined.

Lemma reorder_encoder_states_list_or_tensor_witness :
  match reorder_encoder_states ex_model (2, 3) (IndTensor 4) ex_store,
        reorder_encoder_states ex_model (2, 3) (IndList [2; 0]%Z) ex_store
  with
  | Ok ((e1, m1), σ1), Ok ((e2, m2), σ2) =>
      σ1 !! e1 = σ2 !! e2 ∧ σ1 !! m1 = σ2 !! m2
  | Raise x, Raise y => x = y
  | _, _ => False
  end.
Proof.
  apply (reorder_encoder_states_list_or_tensor ex_model ex_store 2 3
           (FloatTensor float32 ex_enc) (BoolTensor ex_mask) 4 ex_index);
    try reflexivity.
  repeat constructor; unfold int64_ok; simpl; lia.
Defined.

Lemma reorder_encoder_states_well_formed_witness :
  ∃ enc' mask' σ' ce' cm',
    reorder_encoder_states ex_model (2, 3) (IndTensor 4) ex_store
    = Ok ((enc', mask'), σ') ∧
    σ' !! enc' = Some ce' ∧ σ' !! mask' = Some cm' ∧
    cell_wf ce' ∧ cell_wf cm' ∧
    cell_shape ce' = [2; 1; 2] ∧ cell_shape cm' = [2; 1] ∧
    cell_device ce' = cpu ∧ cell_device cm' = cpu ∧
    cell_dtype ce' = floating float32 ∧ cell_dtype cm' = bool_.
Proof.
  apply (reorder_encoder_states_well_formed ex_model ex_store 2 3
           (FloatTensor float32 ex_enc) (BoolTensor ex_mask)
           (IndTensor 4) [2; 0]%Z 3 3 [1; 2] [1]); try reflexivity.
  - exact ex_enc_wf.
  - exact ex_mask_wf.
  - exists ex_index. split_and!; try reflexivity; simpl; lia.
  - repeat constructor; simpl; lia.
  - unfold int64_ok. simpl. lia.
Defined.

Lemma reorder_decoder_incremental_state_reads_layer_keys_witness :
  reorder_decoder_incremental_state ex_model ex_state ex_index
  = reorder_decoder_incremental_state ex_model
      {[ 0%Z := [10; 11; 12]%Z; 1%Z := [20; 21; 22]%Z; (-1)%Z := [5]%Z ]}
      ex_index.
Proof.
  apply (reorder_decoder_incremental_state_reads_layer_keys ex_model).
  intros [|[|idx]] Hidx; [reflexivity|reflexivity|simpl in Hidx; lia].
Defined.

Lemma reorder_decoder_incremental_state_layer_failure_witness :
  reorder_decoder_incremental_state (Imports0 := ex_imports_raising)
    ex_model ex_state ex_index
  = Raise RuntimeError.
Proof.
  apply (reorder_decoder_incremental_state_layer_failure
           (HI := ex_imports_raising) ex_model ex_state ex_index
           1 ex_layer_raising [20; 21; 22]%Z RuntimeError);
    try reflexivity.
  intros [|i] layer' Hi Hl; [|lia]. injection Hl as <-.
  eexists _, _. split; reflexivity.
Defined.

Lemma init_missing_embedding_size_witness :
  __init__ (∅ : Opt) ex_dictionary None (∅ : store Z) = Raise KeyError.
Proof.
  apply (init_missing_embedding_size (HI := ex_imports) ∅ ex_dictionary
           None ∅ (0, 1, 2)%Z ∅); reflexivity.
Defined.

